(** * create-aio-lib: the scaffolding pipeline of [CreateAioLibCommand]

    A shallow embedding of [src/index.js] (class [CreateAioLibCommand]):
    the stages [copyTemplate], [cloneRepo], [removeDotGitFolder],
    [readParametersFile], [updatePackageJson], [replaceText], [cleanup] and
    the command's [run] method, with the properties the specification
    states about them.

    Conventions of the model.
    - JavaScript strings are [string]; file text is a sequence of characters.
    - A JSON document is a [json] value. An object lists its properties in
      the order of [Object.keys]; the number [JNum m e] is [m] times ten to
      the power [e].
    - The parameter manifest has the type the specification gives it: an
      object whose values are arrays of path strings, [params].
    - [fs-extra], [isomorphic-git], [require], [JSON] and the task runner are
      collaborators of the command. Their behaviour is described by [exec]
      below and by the parameters gathered in [platform].
    - [path.join] is [join]: the two arguments are put together with a
      slash and the result is normalized as Node does on POSIX. The file
      system is asked about a path as it is written; [resolved] says that a
      path is absolute and in normal form, which is how the run context of
      the specification holds the destination folder.
    - [async] methods are programs of type [prog]: a call runs up to its
      first [await]; an operation whose promise is dropped is issued and
      completes later, whatever the caller does in between. Code that waits
      for no operation runs without interruption: operations complete
      between turns of the event loop only.
    - [this.parse] is the command line front end: [run] takes the parsed
      arguments and flags.
    - Calls to [debug(...)] only feed the [debug] package and are left out. *)

From Stdlib Require Import ZArith Ascii String.
From stdpp Require Import gmap strings list fin_maps pretty.

#[local] Open Scope string_scope.
#[local] Open Scope list_scope.
#[local] Set Warnings "-register-all".

(** ** Values *)

Inductive result (A : Type) : Type :=
| Ok (a : A)
| Fail (e : string).
Arguments Ok {A} a.
Arguments Fail {A} e.

Inductive json : Type :=
| JNull
| JBool (b : bool)
| JNum (m e : Z)
| JStr (s : string)
| JArr (items : list json)
| JObj (fields : list (string * json)).

(** The parameter manifest: token, then the relative paths it applies to. *)
Definition params : Type := list (string * list string).

(** [ToBoolean] on a JSON value. *)
Definition truthy (v : json) : bool :=
  match v with
  | JNull => false
  | JBool b => b
  | JNum m _ => negb (m =? 0)%Z
  | JStr s => negb (s =? "")
  | JArr _ | JObj _ => true
  end.

(** *** Objects *)

(** [o[k]] *)
Fixpoint obj_get {V : Type} (k : string) (o : list (string * V)) : option V :=
  match o with
  | [] => None
  | (k', v) :: rest => if k =? k' then Some v else obj_get k rest
  end.

(** [o[k] = v]: an existing property keeps its place, a new one goes last. *)
Fixpoint obj_set {V : Type} (k : string) (v : V) (o : list (string * V))
  : list (string * V) :=
  match o with
  | [] => [(k, v)]
  | (k', v') :: rest =>
      if k =? k' then (k, v) :: rest else (k', v') :: obj_set k v rest
  end.

(** [delete o[k]] *)
Definition obj_delete {V : Type} (k : string) (o : list (string * V))
  : list (string * V) :=
  List.filter (fun kv => negb (k =? kv.1)) o.

(** [Object.keys(o)] *)
Definition Object_keys {V : Type} (o : list (string * V)) : list string :=
  map fst o.

(** *** Strings *)

(** [s.startsWith(p)] *)
Definition startsWith (s p : string) : bool := String.prefix p s.

(** [c.toUpperCase()] on the letters of ASCII, for the names of the
    examples. *)
Definition upcase (c : ascii) : ascii :=
  let n := Ascii.nat_of_ascii c in
  if (97 <=? n)%nat && (n <=? 122)%nat then Ascii.ascii_of_nat (n - 32) else c.

(** ** Manifest rewriting: the body of [updatePackageJson] between
    [readJson] and [writeJson].

    The result is the document [writeJson] serialises. The class body is
    strict code: creating a property on a primitive raises [TypeError]. A
    property put on an array lives in memory only, [JSON.stringify] writes
    the elements alone. *)
Definition rewriteManifest (repoName : string) (doc : json) : result json :=
  match doc with
  | JNull => Fail "TypeError: Cannot read properties of null (reading 'bugs')"
  | JBool _ | JNum _ _ | JStr _ =>
      Fail "TypeError: Cannot create property 'bugs' on a primitive"
  | JArr items => Ok (JArr items)
  | JObj json =>
      (* json.bugs = json.bugs || {} *)
      let bugs := match obj_get "bugs" json with
                  | Some b => if truthy b then b else JObj []
                  | None => JObj []
                  end in
      let json := obj_set "bugs" bugs json in
      (* replace name and repository fields *)
      let json := obj_set "name" (JStr ("@" +:+ repoName)) json in
      let json :=
        obj_set "repository" (JStr ("https://github.com/@" +:+ repoName)) json in
      let json :=
        obj_set "homepage" (JStr ("https://github.com/@" +:+ repoName)) json in
      (* json.bugs.url = ... *)
      let url := JStr ("https://github.com/@" +:+ repoName +:+ "/issues") in
      match
        match bugs with
        | JObj b => Ok (obj_set "bugs" (JObj (obj_set "url" url b)) json)
        | JArr _ => Ok json
        | _ => Fail "TypeError: Cannot create property 'url' on a primitive"
        end
      with
      | Fail e => Fail e
      | Ok json =>
          let json := obj_set "version" (JStr "0.0.1") json in
          (* get all underscored keys, and remove them *)
          Ok (JObj (fold_left (fun json key => obj_delete key json)
                      (List.filter (fun key => startsWith key "_")
                         (Object_keys json))
                      json))
      end
  end.

(** ** Token substitution on text *)

(** [from.replace(/{/g, '\\{').replace(/}/g, '\\}')]: each pass puts a
    backslash in front of one of the two braces. *)
Fixpoint escapeChar (c : ascii) (s : string) : string :=
  match s with
  | "" => ""
  | String x rest =>
      if Ascii.eqb x c then String "\" (String x (escapeChar c rest))
      else String x (escapeChar c rest)
  end.

Definition escapeCurly (from : string) : string :=
  escapeChar "}" (escapeChar "{" from).

(** The syntax characters of a pattern. *)
Definition syntaxCharacter (c : ascii) : bool :=
  existsb (Ascii.eqb c)
    ["^"; "$"; "\"; "."; "*"; "+"; "?"; "("; ")"; "["; "]"; "{"; "}"; "|"]%char.

(** [new RegExp(source, 'g')] for the sources that denote a plain text: a
    run of characters that are no syntax characters, or syntax characters
    behind a backslash. The result is the text the pattern matches; [None]
    stands for every other source (classes, groups, quantifiers, ...).
    Lemma [resolved_pattern_is_text] shows that [replaceText] builds no
    other. *)
Fixpoint RegExp (source : string) : option string :=
  match source with
  | "" => Some ""
  | String c rest =>
      if Ascii.eqb c "\" then
        match rest with
        | String c' rest' =>
            if syntaxCharacter c' then String c' <$> RegExp rest' else None
        | "" => None
        end
      else if syntaxCharacter c then None
      else String c <$> RegExp rest
  end.

(** [GetSubstitution] for a match without capture groups: [$$], [$&],
    [$`] and [$'] are patterns, any other text stands for itself. *)
Fixpoint GetSubstitution (template matched before after : string) : string :=
  match template with
  | "" => ""
  | String c rest =>
      let literal := String c (GetSubstitution rest matched before after) in
      if Ascii.eqb c "$" then
        match rest with
        | String c' rest' =>
            let more := GetSubstitution rest' matched before after in
            if Ascii.eqb c' "$" then "$" +:+ more
            else if Ascii.eqb c' "&" then matched +:+ more
            else if Ascii.eqb c' "`" then before +:+ more
            else if Ascii.eqb c' "'" then after +:+ more
            else literal
        | "" => literal
        end
      else literal
  end.

Fixpoint string_drop (n : nat) (s : string) : string :=
  match n, s with
  | S n, String _ rest => string_drop n rest
  | _, _ => s
  end.

(** [s.replace(/text/g, replacer)]: matches are found left to right and do
    not overlap; [replacer matched before after] gives the text put in
    place of a match and may throw. [skip] counts the characters of the
    current match still to pass; [before] is the text already passed. *)
Fixpoint replace_scan (text : string)
    (replacer : string -> string -> string -> result string)
    (skip : nat) (before s : string) : result string :=
  match s with
  | "" =>
      if text =? "" then replacer "" before "" else Ok ""
  | String c rest =>
      let next := before +:+ String c "" in
      match skip with
      | S n => replace_scan text replacer n next rest
      | O =>
          if String.prefix text s then
            match replacer text before (string_drop (String.length text) s) with
            | Fail e => Fail e
            | Ok r =>
                match text with
                | "" =>
                    match replace_scan text replacer 0 next rest with
                    | Fail e => Fail e
                    | Ok out => Ok (r +:+ String c out)
                    end
                | String _ _ =>
                    match replace_scan text replacer (String.length text - 1)
                            next rest with
                    | Fail e => Fail e
                    | Ok out => Ok (r +:+ out)
                    end
                end
            end
          else
            match replace_scan text replacer 0 next rest with
            | Fail e => Fail e
            | Ok out => Ok (String c out)
            end
      end
  end.

(** What a property of [toFrom] can hold: a string of the literal, or a
    member that every object literal inherits from [Object.prototype]. *)
Inductive value : Type :=
| Str (s : string)
| Inherited (name : string).

Definition Object_prototype : list string :=
  ["constructor"; "__defineGetter__"; "__defineSetter__"; "hasOwnProperty";
   "__lookupGetter__"; "__lookupSetter__"; "isPrototypeOf";
   "propertyIsEnumerable"; "toString"; "valueOf"; "__proto__";
   "toLocaleString"].

(** [toFrom[from]]: own properties first, then the prototype. *)
Definition prop (o : list (string * string)) (key : string) : option value :=
  match obj_get key o with
  | Some s => Some (Str s)
  | None =>
      if existsb (String.eqb key) Object_prototype then Some (Inherited key)
      else None
  end.

(** [!to] is false for these. *)
Definition defined (to : option value) : bool :=
  match to with
  | None => false
  | Some (Str s) => negb (s =? "")
  | Some (Inherited _) => true
  end.

(** The second argument of [String.prototype.replace]. A string is a
    replacement template. [__proto__] is the prototype object, which is not
    callable and reads "[object Object]". The other inherited members are
    functions, called with the match and no receiver. *)
Definition replacer (to : value) (matched before after : string)
  : result string :=
  match to with
  | Str template => Ok (GetSubstitution template matched before after)
  | Inherited "__proto__" => Ok "[object Object]"
  | Inherited "constructor" => Ok matched
  | Inherited "toString" => Ok "[object Undefined]"
  | Inherited "isPrototypeOf" => Ok "false"
  | Inherited _ => Fail "TypeError: Cannot convert undefined or null to object"
  end.

(** [fileContents.replace(new RegExp(from, 'g'), to)] *)
Definition String_replace (fileContents from : string) (to : value)
  : result string :=
  match RegExp from with
  | Some text => replace_scan text (replacer to) 0 "" fileContents
  | None => Fail "SyntaxError: pattern outside the modelled fragment"
  end.

(** ** The collaborators *)

(** *** Paths

    [path.join] and [path.normalize] of Node on POSIX. *)

(** [s.split('/')] *)
Fixpoint segments (s : string) : list string :=
  match s with
  | "" => [""]
  | String c rest =>
      if Ascii.eqb c "/" then "" :: segments rest
      else match segments rest with
           | seg :: more => String c seg :: more
           | [] => [String c ""]
           end
  end.

(** One step of [normalizeString]: [kept] holds the segments kept so far,
    the last one first. Empty segments and [.] are dropped; [..] takes the
    last segment away, and stays only where the path may climb above its
    start. *)
Definition normalizeSegment (allowAboveRoot : bool) (kept : list string)
    (seg : string) : list string :=
  if (seg =? "") || (seg =? ".") then kept
  else if seg =? ".." then
    match kept with
    | last :: before =>
        if last =? ".." then (if allowAboveRoot then ".." :: kept else kept)
        else before
    | [] => if allowAboveRoot then [".."] else []
    end
  else seg :: kept.

Definition normalizeString (path : string) (allowAboveRoot : bool)
  : list string :=
  rev (fold_left (normalizeSegment allowAboveRoot) (segments path) []).

(** [s.endsWith('/')] *)
Fixpoint endsWithSlash (s : string) : bool :=
  match s with
  | "" => false
  | String c "" => Ascii.eqb c "/"
  | String _ rest => endsWithSlash rest
  end.

(** [path.normalize(path)] *)
Definition normalize (path : string) : string :=
  if path =? "" then "."
  else
    let isAbsolute := String.prefix "/" path in
    let trailingSeparator := endsWithSlash path in
    let path := String.concat "/" (normalizeString path (negb isAbsolute)) in
    if path =? "" then
      if isAbsolute then "/" else if trailingSeparator then "./" else "."
    else
      let path := if trailingSeparator then path +:+ "/" else path in
      if isAbsolute then "/" +:+ path else path.

(** [path.join(a, b)] *)
Definition join (a b : string) : string :=
  let joined :=
    if a =? "" then b else if b =? "" then a else a +:+ "/" +:+ b in
  if joined =? "" then "." else normalize joined.
Arguments join : simpl never.

(** [path.resolve(p) === p] for a path other than the root: [p] is
    absolute, in normal form and ends in no slash. *)
Definition resolved (p : string) : bool :=
  String.prefix "/" p && negb (p =? "/") && (join p "." =? p).

(** A name: a segment that is not empty and neither [.] nor [..]. *)
Fixpoint no_slash (s : string) : bool :=
  match s with
  | "" => true
  | String c rest => negb (Ascii.eqb c "/") && no_slash rest
  end.

Definition simple (name : string) : bool :=
  negb (name =? "") && negb (name =? ".") && negb (name =? "..")
  && no_slash name.

(** The text that [join folder name] puts in front of a name. *)
Definition slashed (segs : list string) : string :=
  fold_right (fun seg rest => seg +:+ "/" +:+ rest) "" segs.

Definition stem (folder : string) : string :=
  if folder =? "" then ""
  else (if String.prefix "/" folder then "/" else "")
       +:+ slashed (normalizeString folder (negb (String.prefix "/" folder))).

(** The folders above [p], the nearest last. *)
Fixpoint ancestors_from (above : string) (segs : list string) : list string :=
  match segs with
  | [] => []
  | seg :: more =>
      match more with
      | [] => []
      | _ :: _ => (above +:+ seg) :: ancestors_from (above +:+ seg +:+ "/") more
      end
  end.

Definition ancestors (p : string) : list string :=
  ancestors_from (if String.prefix "/" p then "/" else "")
    (List.filter (fun seg => negb (seg =? "")) (segments p)).

(** [under root p] is the rest of [p] after [root] when [p] is [root] or
    lies below it. *)
Definition under (root p : string) : option string :=
  if p =? root then Some ""
  else if String.prefix (root +:+ "/") p
       then Some (string_drop (String.length root) p)
       else None.

Inductive node : Type :=
| File (text : string)
| Dir.

(** The operations of [fs-extra] and [isomorphic-git] that the command
    uses, [require], and the turn the task runner waits for. The index is
    the type of the value they give. *)
Inductive op : Type -> Type :=
| fse_pathExists (p : string) : op bool
| fse_readFile (p : string) : op string
| fse_writeFile (p data : string) : op unit
| fse_readJson (p : string) : op json
| fse_writeJson (p : string) (doc : json) : op unit
| fse_remove (p : string) : op unit
| fse_move (src dest : string) : op unit
| fse_copy (src dest : string) (overwrite errorOnExist : bool) : op unit
| git_clone (url dir : string) : op unit
| require (p : string) : op params
| next_turn : op unit.       (* a promise that is resolved already: the code
                                that awaits it goes on in a later turn *)

(** What a run lets an observer see. *)
Inductive event : Type :=
| Stage (title : option string)                (* the runner starts a task *)
| Title (title : string)                       (* [task.title = ...] *)
| Log (msg : string)                           (* [this.log] *)
| ConsoleError (msg : string)                  (* [console.error] *)
| CliError (msg : string)                      (* [this.error] *)
| Unhandled (e : string)         (* a promise nobody observes is rejected;
                                    what the runtime makes of it - a
                                    warning, the end of the process - is
                                    not described *)
| Settled (r : result unit)      (* the promise of an observed call settles *)
| Done {B : Type} (o : op B) (r : result B).   (* an operation completes *)

(** The body of an [async] function. *)
Inductive prog (A : Type) : Type :=
| Return (a : A)
| Throw (e : string)
| Await {B : Type} (o : op B) (k : result B -> prog A)
| Call {B : Type} (o : op B) (k : result B -> prog A)
| Drop {B : Type} (o : op B) (k : prog A)
| Spawn (child : prog unit) (k : prog A)
| Emit (e : event) (k : prog A).
Arguments Return {A} a.
Arguments Throw {A} e.
Arguments Await {A B} o k.
Arguments Call {A B} o k.
Arguments Drop {A B} o k.
Arguments Spawn {A} child k.
Arguments Emit {A} e k.

(** [settle p f]: [f] receives the outcome of [p], as a handler given to
    [then]/[catch] or the code around an [await] does. *)
Fixpoint settle {A B : Type} (p : prog A) (f : result A -> prog B) : prog B :=
  match p with
  | Return a => f (Ok a)
  | Throw e => f (Fail e)
  | Await o k => Await o (fun r => settle (k r) f)
  | Call o k => Call o (fun r => settle (k r) f)
  | Drop o k => Drop o (settle k f)
  | Spawn child k => Spawn child (settle k f)
  | Emit e k => Emit e (settle k f)
  end.

Definition bind {A B : Type} (p : prog A) (f : A -> prog B) : prog B :=
  settle p (fun r => match r with Ok a => f a | Fail e => Throw e end).

Definition of_result {A : Type} (r : result A) : prog A :=
  match r with Ok a => Return a | Fail e => Throw e end.

(** [await o] *)
Definition await {B : Type} (o : op B) : prog B := Await o of_result.

(** [o] as a statement: the promise is dropped. *)
Definition drop {B : Type} (o : op B) : prog unit := Drop o (Return tt).

(** a synchronous call *)
Definition call_sync {B : Type} (o : op B) : prog B := Call o of_result.

Definition emit (e : event) : prog unit := Emit e (Return tt).

#[global] Instance prog_ret : MRet prog := @Return.
#[global] Instance prog_bind : MBind prog := fun A B f p => bind p f.

(** [for (const x of l) body(x)] *)
Fixpoint for_of {X : Type} (l : list X) (body : X -> prog unit) : prog unit :=
  match l with
  | [] => Return tt
  | x :: rest => body x;; for_of rest body
  end.

(** [l.forEach(async x => body(x))]: every call runs up to its first
    [await]; [forEach] drops the promises. *)
Fixpoint forEach_async {X : Type} (l : list X) (body : X -> prog unit)
  : prog unit :=
  match l with
  | [] => Return tt
  | x :: rest => Spawn (body x) (forEach_async rest body)
  end.

(** What the command takes from its environment. *)
Record platform : Type := {
  (* [JSON.parse], [None] for a text that is no JSON document *)
  JSON_parse : string -> option json;
  (* [JSON.stringify(doc, null, 2)] and a newline, as [writeJson] writes *)
  JSON_stringify : json -> string;
  (* [JSON.parse] on the text of a parameter manifest *)
  JSON_parse_params : string -> option params;
  (* [process.cwd()] *)
  cwd : string;
  (* [path.dirname(require.resolve('@adobe/aio-lib-template/package.json'))] *)
  template_root : string;
  (* [s[0].toUpperCase() + s.slice(1)] on a name that is not empty *)
  capitalize : string -> string;
  (* a copy that fails: the error, and the disk it leaves. [fs-extra]
     copies entry by entry in an order of its own and stops at the first
     entry it cannot copy: the error names that entry, and what was copied
     before it stays *)
  copy_failure : string -> string -> bool -> bool -> gmap string node
                 -> string * gmap string node;
  (* [git.clone({ fs, dir, url, singleBranch: true, depth: 1 })]: its
     outcome on a disk, and the disk it leaves *)
  clone : string -> string -> gmap string node
          -> result unit * gmap string node
}.

(** An operation under way, with the code that waits for it. *)
Inductive job : Type :=
| Job {B : Type} (o : op B) (k : result B -> prog unit).

Record world : Type := {
  disk : gmap string node;
  pending : list job;
  trace : list event
}.

(** ** The file system and the event loop *)

Section Platform.
Context (P : platform).

Definition exists_at (d : gmap string node) (p : string) : bool :=
  bool_decide (is_Some (d !! p)).

Definition read_text (d : gmap string node) (p : string) : result string :=
  match d !! p with
  | Some (File text) => Ok text
  | Some Dir => Fail "EISDIR: illegal operation on a directory, read"
  | None => Fail ("ENOENT: no such file or directory, open '" +:+ p +:+ "'")
  end.

Definition write_text (d : gmap string node) (p data : string)
  : result unit * gmap string node :=
  match d !! p with
  | Some Dir => (Fail "EISDIR: illegal operation on a directory, open", d)
  | _ => (Ok tt, <[p := File data]> d)
  end.

(** The entries of [src] and below, seen from [dest]. *)
Definition relocate (src dest : string) (entries : list (string * node))
  : list (string * node) :=
  omap (fun e => (fun rest => (dest +:+ rest, e.2)) <$> under src e.1) entries.

Definition remove_tree (d : gmap string node) (p : string) : gmap string node :=
  filter (fun e => under p e.1 = None) d.

(** What stands in the way of a copy. An entry of one kind cannot take the
    place of an entry of the other; a file that is there stops a copy that
    may not overwrite and is to report it; a folder cannot be made below a
    file. *)
Definition clashes (d : gmap string node) (e : string * node) : bool :=
  match d !! e.1, e.2 with
  | Some Dir, File _ => true
  | Some (File _), Dir => true
  | _, _ => false
  end.

Definition occupied (d : gmap string node) (e : string * node) : bool :=
  match e.2 with
  | File _ => exists_at d e.1
  | Dir => false
  end.

Definition blocked (d : gmap string node) (p : string) : bool :=
  match d !! p with
  | Some (File _) => true
  | _ => false
  end.

Definition copy_fails (d : gmap string node) (src dest : string)
    (overwrite errorOnExist : bool) : bool :=
  let copied := relocate src dest (map_to_list d) in
  bool_decide (is_Some (under src dest))
  || existsb (blocked d) (ancestors dest)
  || existsb (clashes d) copied
  || (negb overwrite && errorOnExist && existsb (occupied d) copied).

(** [mkdirs(path.dirname(dest))] *)
Definition mkdirs (d : gmap string node) (dest : string) : gmap string node :=
  d ∪ list_to_map ((fun p => (p, Dir)) <$> ancestors dest).

(** [exec o d]: the outcome of [o] on the disk [d], and the disk it leaves.
    An operation takes effect at the moment it completes. *)
Definition exec {B : Type} (o : op B) (d : gmap string node)
  : result B * gmap string node :=
  match o in op B return result B * gmap string node with
  | fse_pathExists p => (Ok (exists_at d p), d)
  | fse_readFile p => (read_text d p, d)
  | fse_writeFile p data => write_text d p data
  | fse_readJson p =>
      match read_text d p with
      | Fail e => (Fail e, d)
      | Ok text =>
          match JSON_parse P text with
          | Some doc => (Ok doc, d)
          | None =>
              (Fail ("SyntaxError: " +:+ p +:+ ": Unexpected token in JSON"), d)
          end
      end
  | fse_writeJson p doc => write_text d p (JSON_stringify P doc)
  | fse_remove p => (Ok tt, remove_tree d p)
  | fse_move src dest =>
      if negb (exists_at d src) then
        (Fail ("ENOENT: no such file or directory, lstat '" +:+ src +:+ "'"), d)
      else if exists_at d dest then (Fail "dest already exists.", d)
      else (Ok tt, list_to_map (relocate src dest (map_to_list d))
                     ∪ remove_tree d src)
  | fse_copy src dest overwrite errorOnExist =>
      let copied := relocate src dest (map_to_list d) in
      if negb (exists_at d src) then
        (Fail ("ENOENT: no such file or directory, lstat '" +:+ src +:+ "'"), d)
      else if copy_fails d src dest overwrite errorOnExist then
        let failure := copy_failure P src dest overwrite errorOnExist d in
        (Fail failure.1, failure.2)
      else if overwrite then (Ok tt, list_to_map copied ∪ mkdirs d dest)
      else (Ok tt, mkdirs d dest ∪ list_to_map copied)
  | git_clone url dir => clone P url dir d
  | require p =>
      if negb (String.prefix "/" p) then
        (Fail ("Cannot find module '" +:+ p +:+ "'"), d)
      else
        match read_text d p with
        | Fail _ => (Fail ("Cannot find module '" +:+ p +:+ "'"), d)
        | Ok text =>
            match JSON_parse_params P text with
            | Some ps => (Ok ps, d)
            | None =>
                (Fail ("SyntaxError: " +:+ p +:+ ": Unexpected token in JSON"), d)
            end
        end
  | next_turn => (Ok tt, d)
  end.

Definition enqueue (j : job) (w : world) : world :=
  {| disk := disk w; pending := pending w ++ [j]; trace := trace w |}.

Definition record (e : event) (w : world) : world :=
  {| disk := disk w; pending := pending w; trace := trace w ++ [e] |}.

(** [w] after more events. *)
Definition extend (w : world) (events : list event) : world :=
  {| disk := disk w; pending := pending w; trace := trace w ++ events |}.

Definition perform {B : Type} (o : op B) (w : world) : result B * world :=
  let r := exec o (disk w) in
  (r.1, {| disk := r.2; pending := pending w; trace := trace w ++ [Done o r.1] |}).

(** The reaction to a promise that was dropped. *)
Definition unobserved {B : Type} (r : result B) : prog unit :=
  match r with Ok _ => Return tt | Fail e => Throw e end.

(** [start p w]: a call whose promise nobody holds. It runs to its first
    [await], where it leaves a job; a rejection is unhandled. *)
Fixpoint start (p : prog unit) (w : world) : world :=
  match p with
  | Return _ => w
  | Throw e => record (Unhandled e) w
  | Await o k => enqueue (Job o k) w
  | Call o k => let r := perform o w in start (k r.1) r.2
  | Drop o k => start k (enqueue (Job o unobserved) w)
  | Spawn child k => start k (start child w)
  | Emit e k => start k (record e w)
  end.

(** [complete i w]: the [i]-th operation under way completes, and the code
    waiting for it runs to its next [await]. *)
Definition complete (i : nat) (w : world) : world :=
  match pending w !! i with
  | None => w
  | Some (Job o k) =>
      let r := perform o {| disk := disk w;
                            pending := delete i (pending w);
                            trace := trace w |} in
      start (k r.1) r.2
  end.

(** A schedule names the operation that completes next, step by step. *)
Fixpoint run_schedule (s : list nat) (w : world) : world :=
  match s with
  | [] => w
  | i :: s => run_schedule s (complete i w)
  end.

(** A schedule is fair to [w] when every step names an operation under
    way. *)
Fixpoint fair (s : list nat) (w : world) : Prop :=
  match s with
  | [] => True
  | i :: s => (i < length (pending w))%nat /\ fair s (complete i w)
  end.

(** Operations complete in the order they were issued. *)
Fixpoint drain (fuel : nat) (w : world) : world :=
  match fuel, pending w with
  | S n, _ :: _ => drain n (complete 0 w)
  | _, _ => w
  end.

(** Every world a run can end in, over all orders of completion, while
    fuel lasts. *)
Fixpoint outcomes (fuel : nat) (w : world) : list world :=
  match fuel, pending w with
  | S n, _ :: _ =>
      flat_map (fun i => outcomes n (complete i w)) (seq 0 (length (pending w)))
  | _, _ => [w]
  end.

(** [invoke p w]: a call whose promise the caller awaits, the caller being
    the only one to make progress: each awaited operation completes at
    once. Dropped operations and spawned calls stay under way. *)
Fixpoint invoke {A : Type} (p : prog A) (w : world) : result A * world :=
  match p with
  | Return a => (Ok a, w)
  | Throw e => (Fail e, w)
  | Await o k => let r := perform o w in invoke (k r.1) r.2
  | Call o k => let r := perform o w in invoke (k r.1) r.2
  | Drop o k => invoke k (enqueue (Job o unobserved) w)
  | Spawn child k => invoke k (start child w)
  | Emit e k => invoke k (record e w)
  end.

End Platform.

(** ** The command *)

Module args.
Record t : Type := { libName : string; repoName : string }.
End args.

Module flags.
Record t : Type := {
  outputDir : option string;
  templateUrl : option string;
  overwrite : bool
}.
End flags.

(** The context object the tasks share. *)
Module ctx.
Record t : Type := {
  templateUrl : option string;
  templateFolder : string;
  libName : string;
  repoName : string;
  overwrite : bool;
  paramsJson : option params
}.
End ctx.

Record task : Type := {
  title : option string;
  task_fn : ctx.t -> prog ctx.t
}.

(** [new Listr(steps).run(ctx)]: the task runner of [listr2], a
    collaborator. As the specification has it, it runs the tasks in order
    on the shared context, shows each title, and stops at the first task
    that fails, failing itself. A task is over when the promise it returns
    settles. The runner is asynchronous itself: it takes up the first task
    in a later turn, when the code that called it has run on. *)
Fixpoint Listr_tasks (steps : list task) (c : ctx.t) : prog ctx.t :=
  match steps with
  | [] => Return c
  | step :: rest =>
      Emit (Stage (title step)) (c ← task_fn step c; Listr_tasks rest c)
  end.

Definition Listr_run (steps : list task) (c : ctx.t) : prog ctx.t :=
  await next_turn;; Listr_tasks steps c.

(** [this.error(msg)] reports the message and throws. *)
Definition this_error {A : Type} (msg : string) : prog A :=
  Emit (CliError msg) (Throw msg).

(** A flag that was given and is not the empty string. *)
Definition given (flag : option string) : bool :=
  match flag with Some s => negb (s =? "") | None => false end.

(** [l.includes(x)] *)
Definition includes (l : list string) (x : string) : bool :=
  existsb (String.eqb x) l.

(** [new Set(l)]: the elements of [l] in the order they first occur. *)
Definition new_Set (l : list string) : list string :=
  fold_left (fun set x => if includes set x then set else (set ++ [x])%list) l [].

(** [paramsJson[key]] *)
Definition paths_of (paramsJson : params) (key : string) : list string :=
  default [] (obj_get key paramsJson).

Section Command.
Context (P : platform).

Definition copyTemplate (toFolder : string) (overwrite : bool) : prog unit :=
  let from := template_root P in
  await (fse_copy from toFolder overwrite (negb overwrite)).

Definition cloneRepo (url toFolder : string) : prog unit :=
  emit (Log ("Cloning " +:+ url +:+ "..."));;
  await (git_clone url toFolder).

Definition removeDotGitFolder (repoFolder : string) : prog unit :=
  (* remove .git folder *)
  let dotGitFolder := join repoFolder ".git" in
  await (fse_remove dotGitFolder).

Definition readParametersFile (repoFolder : string) : prog params :=
  (* read the template.parameters.json file *)
  let paramsFileName := "template.parameters.json" in
  let paramsFile := join repoFolder paramsFileName in
  found ← await (fse_pathExists paramsFile);
  if negb found then
    Throw (paramsFileName +:+ " does not exist in " +:+ repoFolder)
  else call_sync (require paramsFile).

Definition updatePackageJson (repoFolder repoName : string) : prog unit :=
  let packageJsonFile := join repoFolder "package.json" in
  found ← await (fse_pathExists packageJsonFile);
  if negb found then
    Throw (packageJsonFile +:+ " does not exist in " +:+ repoFolder)
  else
    json ← await (fse_readJson packageJsonFile);
    json ← of_result (rewriteManifest repoName json);
    await (fse_writeJson packageJsonFile json).

Definition cleanup (repoFolder : string) : prog unit :=
  let filesToRemove := ["types.d.ts"; "template.parameters.json"] in
  for_of (map (fun file => join repoFolder file) filesToRemove)
    (fun filePath => drop (fse_remove filePath));;
  let filesToRename :=
    [("gitignore.template", ".gitignore"); ("npmrc.template", ".npmrc")] in
  for_of (Object_keys filesToRename) (fun key =>
    let value := default "" (obj_get key filesToRename) in
    drop (fse_move (join repoFolder key) (join repoFolder value))).

(** The body of [tokens.forEach(async from => ...)] for one token, on the
    [fileContents] the closure shares with its caller. *)
Definition replaceToken (toFrom : list (string * string))
    (fileContents from : string) : prog string :=
  let to := prop toFrom from in
  if negb (defined to) then
    emit (ConsoleError ("No mapping found, skipping replace of " +:+ from));;
    Return fileContents
  else
    (* escape curly braces *)
    let from := escapeCurly from in
    match to with
    | Some to => of_result (String_replace fileContents from to)
    | None => Return fileContents
    end.

(** [tokens.forEach(async from => ...)]: the closure does not await, so
    each call is over when [forEach] goes on; its promise is dropped, and
    a call that throws leaves [fileContents] as it was. *)
Fixpoint forEach_token (toFrom : list (string * string))
    (tokens : list string) (fileContents : string) : prog string :=
  match tokens with
  | [] => Return fileContents
  | from :: rest =>
      settle (replaceToken toFrom fileContents from) (fun r =>
        match r with
        | Ok fileContents => forEach_token toFrom rest fileContents
        | Fail e => Emit (Unhandled e) (forEach_token toFrom rest fileContents)
        end)
  end.

(** [tokens]: the tokens of the manifest that list [pathItem]. *)
Definition tokens (paramsJson : params) (pathItem : string) : list string :=
  List.filter (fun token => includes (paths_of paramsJson token) pathItem)
    (Object_keys paramsJson).

(** The body of [pathItemSet.forEach(async pathItem => ...)]. *)
Definition replaceFile (repoFolder : string) (paramsJson : params)
    (toFrom : list (string * string)) (pathItem : string) : prog unit :=
  (* find the tokens for the file path *)
  let tokens := tokens paramsJson pathItem in
  (* read the file once *)
  let filePath := join repoFolder pathItem in
  fileContents ← await (fse_readFile filePath);
  (* replace the tokens in the file *)
  fileContents ← forEach_token toFrom tokens fileContents;
  (* write the altered file back *)
  if (0 <? length tokens)%nat then await (fse_writeFile filePath fileContents)
  else Return tt.

Definition toFrom (libName repoName : string) : list (string * string) :=
  [("{{REPO}}", repoName); ("{{LIB_NAME}}", libName);
   ("LibNameCoreAPI", libName)].

(** Get all file paths into a set *)
Definition pathItemSet (paramsJson : params) : list string :=
  fold_left (fun set key =>
               let values := paths_of paramsJson key in
               new_Set (set ++ values)%list)
    (Object_keys paramsJson) [].

Definition replaceText (repoFolder : string) (paramsJson : params)
    (libName repoName : string) : prog unit :=
  let toFrom := toFrom libName repoName in
  forEach_async (pathItemSet paramsJson)
    (replaceFile repoFolder paramsJson toFrom).

(** The folder [run] makes the library in, and what it says when the
    folder is there already. *)
Definition destination (a : args.t) (f : flags.t) : string :=
  join (if given (flags.outputDir f) then default "" (flags.outputDir f)
        else cwd P)
    (args.libName a).


Definition run (a : args.t) (f : flags.t) : prog unit :=
  match args.libName a with
  | "" =>
      Throw "TypeError: Cannot read properties of undefined (reading 'toUpperCase')"
  | String first rest =>
      (* capitalize first letter of the lib name *)
      let libName := capitalize P (String first rest) in
      let templateUrl := flags.templateUrl f in
      let outputFolder :=
        if given (flags.outputDir f) then default "" (flags.outputDir f)
        else cwd P in
      let templateFolder := join outputFolder (args.libName a) in
      let repoName :=
        if startsWith (args.repoName a) "@" (* strip leading @ *)
        then string_drop 1 (args.repoName a)
        else args.repoName a in
      found ← await (fse_pathExists templateFolder);
      (if found && negb (flags.overwrite f) then
         this_error ("Destination " +:+ templateFolder
                     +:+ " exists, use the '--overwrite' flag to overwrite.")
       else Return tt);;
      let cloneTemplateStep :=
        {| title := None;
           task_fn := fun c =>
             emit (Title ("Cloning template from "
                          +:+ default "undefined" (ctx.templateUrl c)));;
             Spawn (cloneRepo (default "undefined" (ctx.templateUrl c))
                      (ctx.templateFolder c))
               (Return c) |} in
      let steps :=
        [ {| title := Some "Copy template";
             task_fn := fun c =>
               copyTemplate (ctx.templateFolder c) (ctx.overwrite c);;
               Return c |};
          {| title := Some "Remove .git folder";
             task_fn := fun c =>
               removeDotGitFolder (ctx.templateFolder c);; Return c |};
          {| title := Some "Read parameters file";
             task_fn := fun c =>
               ps ← readParametersFile (ctx.templateFolder c);
               Return {| ctx.templateUrl := ctx.templateUrl c;
                         ctx.templateFolder := ctx.templateFolder c;
                         ctx.libName := ctx.libName c;
                         ctx.repoName := ctx.repoName c;
                         ctx.overwrite := ctx.overwrite c;
                         ctx.paramsJson := Some ps |} |};
          {| title := Some "Update package.json";
             task_fn := fun c =>
               updatePackageJson (ctx.templateFolder c) (ctx.repoName c);;
               Return c |};
          {| title := Some "Replace text";
             task_fn := fun c =>
               match ctx.paramsJson c with
               | Some paramsJson =>
                   replaceText (ctx.templateFolder c) paramsJson
                     (ctx.libName c) (ctx.repoName c)
               | None =>
                   Throw "TypeError: Cannot convert undefined or null to object"
               end;;
               Return c |};
          {| title := Some "Cleanup";
             task_fn := fun c => cleanup (ctx.templateFolder c);; Return c |};
          {| title := Some "Lib Location";
             task_fn := fun c =>
               emit (Title ("Lib created at " +:+ ctx.templateFolder c));;
               Return c |} ] in
      let steps :=
        if given templateUrl then <[0%nat := cloneTemplateStep]> steps
        else steps in
      Spawn
        (settle
           (Listr_run steps
              {| ctx.templateUrl := flags.templateUrl f;
                 ctx.templateFolder := templateFolder;
                 ctx.libName := libName;
                 ctx.repoName := repoName;
                 ctx.overwrite := flags.overwrite f;
                 ctx.paramsJson := None |})
           (fun r => match r with
                     | Ok _ => Return tt
                     | Fail e => this_error e
                     end))
        (Return tt)
  end.

End Command.

(** ** Observing a run *)

(** The caller of an [async] method holds its promise and sees how it
    settles; the command line harness does so with [run]. *)
Definition observe {A : Type} (p : prog A) : prog unit :=
  settle p (fun r =>
    emit (Settled match r with Ok _ => Ok tt | Fail e => Fail e end)).

(** An operation under way, without the code that waits for it. *)
Inductive issued : Type :=
| Issued {B : Type} (o : op B).

Definition job_op (j : job) : issued :=
  match j with Job o _ => Issued o end.

(** A job whose promise was dropped. *)
Inductive dropped : job -> Prop :=
| dropped_job {B : Type} (o : op B) : dropped (Job o unobserved).

(** No operation is under way. *)
Definition at_rest (w : world) : bool :=
  match pending w with [] => true | _ :: _ => false end.

Definition is_stage (t : string) (e : event) : bool :=
  match e with Stage (Some t') => t =? t' | _ => false end.

Definition is_cli_error (e : event) : bool :=
  match e with CliError _ => true | _ => false end.

Definition is_console_error (e : event) : bool :=
  match e with ConsoleError _ => true | _ => false end.

Definition is_unhandled (msg : string) (e : event) : bool :=
  match e with Unhandled m => msg =? m | _ => false end.

Definition is_settled (e : event) : bool :=
  match e with Settled _ => true | _ => false end.

(** The first event that satisfies [p] comes before every event that
    satisfies [q], and there is one of these after it. *)
Fixpoint precedes (p q : event -> bool) (l : list event) : bool :=
  match l with
  | [] => false
  | e :: l => if q e then false else if p e then existsb q l else precedes p q l
  end.

(** Events that settle no observed promise. *)
Definition quiet (events : list event) : Prop :=
  Forall (fun e => is_settled e = false) events.

(** [fs.writeFile(p, data)] completed. *)
Definition is_write (p data : string) (e : event) : bool :=
  match e with
  | Done o _ =>
      match o with
      | fse_writeFile p' data' => (p =? p') && (data =? data')
      | _ => false
      end
  | _ => false
  end.

(** The file at [p] holds [text]. *)
Definition holds (p text : string) (w : world) : bool :=
  match disk w !! p with
  | Some (File t) => t =? text
  | _ => false
  end.

(** [s.includes(t)] on strings. *)
Fixpoint occurs (t s : string) : bool :=
  String.prefix t s
  || match s with "" => false | String _ rest => occurs t rest end.

(** A replacement value without [$]. *)
Fixpoint no_dollar (s : string) : bool :=
  match s with
  | "" => true
  | String c rest => negb (Ascii.eqb c "$") && no_dollar rest
  end.

(** A token whose only syntax characters are braces. *)
Fixpoint brace_text (s : string) : bool :=
  match s with
  | "" => true
  | String c rest =>
      (Ascii.eqb c "{" || Ascii.eqb c "}" || negb (syntaxCharacter c))
      && brace_text rest
  end.

(** The diagnostic of [replaceToken]. *)
Definition no_mapping (from : string) : event :=
  ConsoleError ("No mapping found, skipping replace of " +:+ from).

(** ** The specification's substitution

    "A global (all-occurrences) literal-text replacement of the token with
    the resolved value": from left to right, every occurrence of [token]
    that does not overlap the one before gives way to [value], taken
    literally. *)
Fixpoint replace_from (token value : string) (skip : nat) (s : string)
  : string :=
  match s with
  | "" => ""
  | String c rest =>
      match skip with
      | S n => replace_from token value n rest
      | O =>
          if String.prefix token s
          then value +:+ replace_from token value (String.length token - 1) rest
          else String c (replace_from token value 0 rest)
      end
  end.

Definition replace_all (token value s : string) : string :=
  if token =? "" then s else replace_from token value 0 s.

(** ** Fixtures

    A JSON codec for the documents of the examples: [print] writes a
    document the way [JSON.stringify(doc, null, 2)] lays it out, and a text
    parses to the document of the table that prints to it. *)

Definition quote : string := String (Ascii.ascii_of_nat 34) "".
Definition newline : string := String (Ascii.ascii_of_nat 10) "".

Fixpoint indent (n : nat) : string :=
  match n with O => "" | S n => "  " +:+ indent n end.

Fixpoint escaped (s : string) : string :=
  match s with
  | "" => ""
  | String c rest =>
      if (Ascii.nat_of_ascii c =? 34)%nat || (Ascii.nat_of_ascii c =? 92)%nat
      then String "\" (String c (escaped rest))
      else String c (escaped rest)
  end.

Definition quoted (s : string) : string := quote +:+ escaped s +:+ quote.

Fixpoint print (depth : nat) (doc : json) : string :=
  match doc with
  | JNull => "null"
  | JBool true => "true"
  | JBool false => "false"
  | JNum m e => if (e =? 0)%Z then pretty m else pretty m +:+ "e" +:+ pretty e
  | JStr s => quoted s
  | JArr [] => "[]"
  | JArr (x :: items) =>
      "[" +:+ newline +:+ indent (S depth) +:+ print (S depth) x
      +:+ (fix rest (l : list json) : string :=
             match l with
             | [] => ""
             | y :: l =>
                 "," +:+ newline +:+ indent (S depth) +:+ print (S depth) y
                 +:+ rest l
             end) items
      +:+ newline +:+ indent depth +:+ "]"
  | JObj [] => "{}"
  | JObj (x :: fields) =>
      "{" +:+ newline +:+ indent (S depth) +:+ quoted x.1 +:+ ": "
      +:+ print (S depth) x.2
      +:+ (fix rest (l : list (string * json)) : string :=
             match l with
             | [] => ""
             | y :: l =>
                 "," +:+ newline +:+ indent (S depth) +:+ quoted y.1 +:+ ": "
                 +:+ print (S depth) y.2 +:+ rest l
             end) fields
      +:+ newline +:+ indent depth +:+ "}"
  end.

Definition stringify (doc : json) : string := print 0 doc +:+ newline.

(** A parameter manifest as a document. *)
Definition json_of_params (ps : params) : json :=
  JObj (map (fun e => (e.1, JArr (map JStr e.2))) ps).

(** A copy that fails, for the examples: the entries are visited in the
    order of the map, up to the first one that cannot be copied. *)
Fixpoint copy_entries (overwrite : bool) (entries : list (string * node))
    (d : gmap string node) : string * gmap string node :=
  match entries with
  | [] => ("", d)
  | (p, n) :: rest =>
      match d !! p, n with
      | None, _ => copy_entries overwrite rest (<[p := n]> d)
      | Some Dir, Dir => copy_entries overwrite rest d
      | Some (File _), File _ =>
          if overwrite then copy_entries overwrite rest (<[p := n]> d)
          else ("'" +:+ p +:+ "' already exists", d)
      | Some Dir, File _ =>
          ("Cannot overwrite directory '" +:+ p +:+ "' with non-directory", d)
      | Some (File _), Dir =>
          ("Cannot overwrite non-directory '" +:+ p +:+ "' with directory", d)
      end
  end.

Definition stub (docs : list json) (manifests : list params) : platform := {|
  JSON_parse := fun text => List.find (fun doc => stringify doc =? text) docs;
  JSON_stringify := stringify;
  JSON_parse_params := fun text =>
    List.find (fun ps => stringify (json_of_params ps) =? text) manifests;
  cwd := "/work";
  template_root := "/opt/aio-lib-template";
  capitalize := fun name =>
    match name with
    | "" => ""
    | String first rest => String (upcase first) rest
    end;
  copy_failure := fun src dest overwrite _ d =>
    copy_entries overwrite (relocate src dest (map_to_list d)) d;
  clone := fun url _ d => (Fail ("HttpError: cannot reach " +:+ url), d)
|}.

Definition on_disk (d : gmap string node) : world :=
  {| disk := d; pending := []; trace := [] |}.

(** *** The worlds of the examples *)

(** The manifest of the repository's own test of [updatePackageJson]. *)
Definition test_manifest : json := JObj [("name", JStr "oldName")].

Definition test_disk : gmap string node :=
  {[ "/path/to/repository/package.json" := File (stringify test_manifest) ]}.

(** A bundled template whose parameter manifest lists [docs/api.md], a
    file the template does not have. *)
Definition template_manifest : json :=
  JObj [("name", JStr "@adobe/aio-lib-template");
        ("version", JStr "1.2.4");
        ("license", JStr "Apache-2.0");
        ("bugs", JObj [("url", JStr "https://github.com/adobe/aio-lib-template/issues")]);
        ("_template", JBool true)].

Definition template_params : params := [("{{REPO}}", ["docs/api.md"])].

Definition bundled : platform := stub [template_manifest] [template_params].

Definition template_disk : gmap string node :=
  list_to_map
    [("/work", Dir);
     ("/opt/aio-lib-template", Dir);
     ("/opt/aio-lib-template/package.json", File (stringify template_manifest));
     ("/opt/aio-lib-template/template.parameters.json",
      File (stringify (json_of_params template_params)));
     ("/opt/aio-lib-template/types.d.ts", File "export {}");
     ("/opt/aio-lib-template/gitignore.template", File "node_modules")].


Definition library : args.t :=
  {| args.libName := "foo"; args.repoName := "@org/bar" |}.

Definition no_flags : flags.t :=
  {| flags.outputDir := None; flags.templateUrl := None;
     flags.overwrite := false |}.


(** The parameter manifest of the specification's third testable
    property, and a folder for it. *)
Definition example_params : params :=
  [("{{LIB_NAME}}", ["a.txt"]); ("{{REPO}}", ["a.txt"]);
   ("UNKNOWN_TOKEN", ["b.txt"])].

Definition example_disk : gmap string node :=
  list_to_map
    [("/work/Foo", Dir);
     ("/work/Foo/a.txt", File "{{LIB_NAME}} lives at {{REPO}}");
     ("/work/Foo/b.txt", File "plain text")].

(** A manifest with a token that every object knows by inheritance. *)
Definition inherited_params : params := [("toString", ["index.js"])].

Definition inherited_disk : gmap string node :=
  list_to_map
    [("/work/Foo", Dir); ("/work/Foo/index.js", File "x.toString()")].

(** A folder whose parameter manifest is cut short. *)
Definition malformed_disk : gmap string node :=
  list_to_map
    [("/work/foo", Dir);
     ("/work/foo/template.parameters.json", File "{ ")].

(** ** Further notions for the properties of the stages *)

(** A value of [bugs] that is truthy and no object: a non-empty string, a
    number other than zero, [true]. *)
Definition truthy_primitive (b : json) : bool :=
  match b with
  | JObj _ | JArr _ => false
  | _ => truthy b
  end.

(** The text of a file after the tokens that list it were replaced, one
    after the other, each by its value of the table. *)
Definition substituted (libName repoName : string) (tokens : list string)
    (text : string) : string :=
  fold_left (fun text from =>
               replace_all from
                 (default "" (obj_get from (toFrom libName repoName))) text)
    tokens text.

(** [outside q o]: the path [q] is neither at nor below a place [o] may
    change. What a clone changes is not known, nor what a copy leaves when
    it fails. *)
Definition outside {B : Type} (q : string) (o : op B) : bool :=
  match o with
  | fse_pathExists _ | fse_readFile _ | fse_readJson _ | require _
  | next_turn => true
  | fse_writeFile p _ | fse_writeJson p _ => negb (q =? p)
  | fse_remove p => bool_decide (under p q = None)
  | fse_move src dest =>
      bool_decide (under src q = None) && bool_decide (under dest q = None)
  | fse_copy _ _ _ _ | git_clone _ _ => false
  end.

(** [confined q p]: every operation [p] may issue leaves [q] alone. *)
Fixpoint confined (q : string) {A : Type} (p : prog A) : Prop :=
  match p with
  | Return _ | Throw _ => True
  | Await o k | Call o k => outside q o = true /\ forall r, confined q (k r)
  | Drop o k => outside q o = true /\ confined q k
  | Spawn child k => confined q child /\ confined q k
  | Emit _ k => confined q k
  end.

Definition job_confined (q : string) (j : job) : Prop :=
  match j with
  | Job o k => outside q o = true /\ forall r, confined q (k r)
  end.

(** The operations [cleanup] issues, their promises dropped. *)
Inductive cleanup_job (repoFolder : string) : job -> Prop :=
| cleanup_remove file :
    file ∈ ["types.d.ts"; "template.parameters.json"] ->
    cleanup_job repoFolder
      (Job (fse_remove (join repoFolder file)) unobserved)
| cleanup_move key value :
    (key, value) ∈ [("gitignore.template", ".gitignore");
                    ("npmrc.template", ".npmrc")] ->
    cleanup_job repoFolder
      (Job (fse_move (join repoFolder key) (join repoFolder value)) unobserved).

(** The job removes [q]; the job moves [src]. *)
Definition removes (q : string) (j : job) : bool :=
  match j with
  | Job o _ => match o with fse_remove p => p =? q | _ => false end
  end.

Definition moves (src : string) (j : job) : bool :=
  match j with
  | Job o _ => match o with fse_move p _ => p =? src | _ => false end
  end.

(** Where the rewriting of one file stands: its read is under way, its
    write is under way, or the new text is on disk. The other operations
    under way leave the file alone. *)
Inductive rewriting (filePath text written : string) (w : world) : Prop :=
| rewriting_read before k after :
    pending w = before ++ Job (fse_readFile filePath) k :: after ->
    Forall (job_confined filePath) before ->
    Forall (job_confined filePath) after ->
    k (Ok text) = await (fse_writeFile filePath written) ->
    disk w !! filePath = Some (File text) ->
    rewriting filePath text written w
| rewriting_write before after :
    pending w
    = before ++ Job (fse_writeFile filePath written) of_result :: after ->
    Forall (job_confined filePath) before ->
    Forall (job_confined filePath) after ->
    disk w !! filePath = Some (File text) ->
    rewriting filePath text written w
| rewriting_done :
    Forall (job_confined filePath) (pending w) ->
    disk w !! filePath = Some (File written) ->
    rewriting filePath text written w.

(** *** More worlds for the examples *)

(** Manifests whose [bugs] field is an address, as npm allows, and a
    list. *)
Definition string_bugs_manifest : json :=
  JObj [("name", JStr "lib"); ("bugs", JStr "https://example.com/issues")].

Definition array_bugs_manifest : json :=
  JObj [("name", JStr "lib");
        ("bugs", JArr [JStr "https://example.com/issues"])].

Definition odd_bugs : platform :=
  stub [string_bugs_manifest; array_bugs_manifest] [].

Definition string_bugs_disk : gmap string node :=
  {[ "/work/foo/package.json" := File (stringify string_bugs_manifest) ]}.

Definition array_bugs_disk : gmap string node :=
  {[ "/work/foo/package.json" := File (stringify array_bugs_manifest) ]}.

(** A template without a parameter manifest. *)
Definition bare_disk : gmap string node :=
  list_to_map
    [("/work", Dir);
     ("/opt/aio-lib-template", Dir);
     ("/opt/aio-lib-template/package.json", File (stringify template_manifest))].

(** A library folder with a file no token lists, and one that has a
    [.gitignore] already. *)
Definition unlisted_disk : gmap string node :=
  <["/work/Foo/c.txt" := File "{{REPO}}"]> example_disk.

Definition ignoring_disk : gmap string node :=
  <["/opt/aio-lib-template/.gitignore" := File "dist"]> template_disk.

(** Flags that name a template to clone. *)
Definition clone_flags : flags.t :=
  {| flags.outputDir := None;
     flags.templateUrl := Some "https://example.com/t.git";
     flags.overwrite := false |}.

(** * Properties *)

(** ** Objects *)

Section Objects.
Context {V : Type}.
Implicit Types (o : list (string * V)) (k : string).

Lemma obj_get_set k k' (v : V) o :
  obj_get k (obj_set k' v o) = if k =? k' then Some v else obj_get k o.
Proof.
  induction o as [|[k0 v0] o IH]; simpl.
  - destruct (String.eqb_spec k k'); reflexivity.
  - destruct (String.eqb_spec k' k0) as [->|Hne]; simpl.
    + destruct (String.eqb_spec k k0); reflexivity.
    + destruct (String.eqb_spec k k0) as [->|Hne'].
      * destruct (String.eqb_spec k0 k'); congruence.
      * exact IH.
Qed.

Lemma obj_get_delete k k' o :
  obj_get k (obj_delete k' o) = if k' =? k then None else obj_get k o.
Proof.
  unfold obj_delete.
  induction o as [|[k0 v0] o IH]; simpl.
  - destruct (k' =? k); reflexivity.
  - destruct (String.eqb_spec k' k0) as [->|Hne]; simpl.
    + rewrite IH. destruct (String.eqb_spec k0 k) as [->|Hne'].
      * reflexivity.
      * destruct (String.eqb_spec k k0); congruence.
    + rewrite IH. destruct (String.eqb_spec k k0) as [->|Hne'].
      * destruct (String.eqb_spec k' k0); congruence.
      * reflexivity.
Qed.

Lemma obj_get_delete_all k keys o :
  obj_get k (fold_left (fun o key => obj_delete key o) keys o)
  = if existsb (String.eqb k) keys then None else obj_get k o.
Proof.
  revert o. induction keys as [|key keys IH]; intros o; simpl.
  - reflexivity.
  - rewrite IH, obj_get_delete.
    destruct (String.eqb_spec k key) as [->|Hne]; simpl.
    + rewrite String.eqb_refl. destruct (existsb _ keys); reflexivity.
    + destruct (String.eqb_spec key k); congruence.
Qed.

Lemma obj_get_not_key k o :
  existsb (String.eqb k) (Object_keys o) = false -> obj_get k o = None.
Proof.
  induction o as [|[k0 v0] o IH]; simpl; [reflexivity|].
  destruct (k =? k0); simpl; [discriminate | exact IH].
Qed.

End Objects.

Lemma existsb_eqb_filter (f : string -> bool) k (l : list string) :
  existsb (String.eqb k) (List.filter f l) = f k && existsb (String.eqb k) l.
Proof.
  induction l as [|x l IH]; simpl.
  - rewrite andb_false_r. reflexivity.
  - destruct (f x) eqn:Hx; simpl; rewrite IH;
      destruct (String.eqb_spec k x) as [->|Hne]; simpl;
      rewrite ?Hx; reflexivity.
Qed.

(** Removing the underscored keys: an underscored key is gone, any other
    key reads as before. *)
Lemma obj_get_purged k (o : list (string * json)) :
  obj_get k (fold_left (fun json key => obj_delete key json)
               (List.filter (fun key => startsWith key "_") (Object_keys o)) o)
  = if startsWith k "_" then None else obj_get k o.
Proof.
  rewrite obj_get_delete_all, existsb_eqb_filter.
  destruct (startsWith k "_"); simpl; [|reflexivity].
  destruct (existsb _ _) eqn:E; [reflexivity|].
  rewrite (obj_get_not_key _ _ E). reflexivity.
Qed.

(** ** Manifest rewriting *)

(** What [rewriteManifest] leaves in an object manifest. The repository
    and homepage addresses carry the [@] that [name] needs. *)
Lemma rewriteManifest_object repoName fields out :
  rewriteManifest repoName (JObj fields) = Ok out ->
  exists fields',
    out = JObj fields'
    /\ obj_get "name" fields' = Some (JStr ("@" +:+ repoName))
    /\ obj_get "repository" fields'
       = Some (JStr ("https://github.com/@" +:+ repoName))
    /\ obj_get "homepage" fields'
       = Some (JStr ("https://github.com/@" +:+ repoName))
    /\ obj_get "version" fields' = Some (JStr "0.0.1")
    /\ ((forall items, obj_get "bugs" fields <> Some (JArr items)) ->
        exists bugs,
          obj_get "bugs" fields' = Some (JObj bugs)
          /\ obj_get "url" bugs
             = Some (JStr ("https://github.com/@" +:+ repoName +:+ "/issues")))
    /\ (forall k, startsWith k "_" = true -> obj_get k fields' = None)
    /\ (forall k, startsWith k "_" = false ->
          k ∉ ["name"; "repository"; "homepage"; "bugs"; "version"] ->
          obj_get k fields' = obj_get k fields).
Proof.
  unfold rewriteManifest.
  set (bugs := match obj_get "bugs" fields with
               | Some b => if truthy b then b else JObj []
               | None => JObj []
               end).
  intros H.
  assert (Hother : forall k v (o : list (string * json)),
            k ∉ ["name"; "repository"; "homepage"; "bugs"; "version"] ->
            forall k',
              k' ∈ ["name"; "repository"; "homepage"; "bugs"; "version"] ->
              obj_get k (obj_set k' v o) = obj_get k o).
  { intros k v o Hk k' Hk'. rewrite obj_get_set.
    destruct (String.eqb_spec k k') as [->|]; [contradiction|reflexivity]. }
  assert (Harr : forall items, bugs = JArr items ->
            obj_get "bugs" fields = Some (JArr items)).
  { intros items. subst bugs.
    destruct (obj_get "bugs" fields) as [b|]; [|discriminate].
    destruct (truthy b); [congruence | discriminate]. }
  destruct bugs as [| | | |items|b] eqn:Hbugs; try discriminate H;
    injection H as <-; eexists; (split; [reflexivity|]).
  - repeat split.
    1-4: rewrite obj_get_purged, !obj_get_set; reflexivity.
    + intros Hno. destruct (Hno items (Harr items eq_refl)).
    + intros k Hk. rewrite obj_get_purged, Hk. reflexivity.
    + intros k Hk Hin. rewrite obj_get_purged, Hk.
      repeat (rewrite Hother; [|assumption|set_solver]). reflexivity.
  - repeat split.
    1-4: rewrite obj_get_purged, !obj_get_set; reflexivity.
    + intros _. eexists. split.
      * rewrite obj_get_purged, !obj_get_set. reflexivity.
      * rewrite obj_get_set. reflexivity.
    + intros k Hk. rewrite obj_get_purged, Hk. reflexivity.
    + intros k Hk Hin. rewrite obj_get_purged, Hk.
      repeat (rewrite Hother; [|assumption|set_solver]). reflexivity.
Qed.

(** ** Awaited calls *)

Section Invoke.
Context (P : platform).

Lemma invoke_settle {A B : Type} (p : prog A) (f : result A -> prog B) w :
  invoke P (settle p f) w
  = invoke P (f (invoke P p w).1) (invoke P p w).2.
Proof.
  revert B f w. induction p; intros B' f w; simpl; auto.
Qed.

Lemma invoke_bind {A B : Type} (p : prog A) (f : A -> prog B) w :
  invoke P (p ≫= f) w
  = match (invoke P p w).1 with
    | Ok a => invoke P (f a) (invoke P p w).2
    | Fail e => (Fail e, (invoke P p w).2)
    end.
Proof.
  unfold mbind, prog_bind, bind. rewrite invoke_settle.
  destruct (invoke P p w).1; reflexivity.
Qed.

Lemma invoke_await {B : Type} (o : op B) w :
  invoke P (await o) w = perform P o w.
Proof.
  unfold await, perform. simpl.
  destruct (exec P o (disk w)) as [[b|e] d]; reflexivity.
Qed.

Lemma exists_at_Some (d : gmap string node) p n :
  d !! p = Some n -> exists_at d p = true.
Proof. intros H. unfold exists_at. rewrite H. reflexivity. Qed.

Lemma extend_nil w : extend w [] = w.
Proof. destruct w. unfold extend. simpl. rewrite app_nil_r. reflexivity. Qed.

Lemma extend_extend w e1 e2 : extend (extend w e1) e2 = extend w (e1 ++ e2).
Proof. unfold extend. simpl. rewrite app_assoc. reflexivity. Qed.

Lemma record_extend e w : record e w = extend w [e].
Proof. reflexivity. Qed.

(** [updatePackageJson] on a manifest that is there and parses. *)
Lemma invoke_updatePackageJson repoFolder repoName w text doc :
  let pkg := join repoFolder "package.json" in
  disk w !! pkg = Some (File text) ->
  JSON_parse P text = Some doc ->
  invoke P (updatePackageJson repoFolder repoName) w
  = match rewriteManifest repoName doc with
    | Ok out =>
        (Ok tt,
         {| disk := <[pkg := File (JSON_stringify P out)]> (disk w);
            pending := pending w;
            trace := trace w ++ [Done (fse_pathExists pkg) (Ok true);
                                 Done (fse_readJson pkg) (Ok doc);
                                 Done (fse_writeJson pkg out) (Ok tt)] |})
    | Fail e =>
        (Fail e,
         {| disk := disk w;
            pending := pending w;
            trace := trace w ++ [Done (fse_pathExists pkg) (Ok true);
                                 Done (fse_readJson pkg) (Ok doc)] |})
    end.
Proof.
  intros pkg Hfile Hdoc. unfold updatePackageJson. fold pkg.
  rewrite invoke_bind, invoke_await. unfold perform at 1 2. simpl.
  rewrite (exists_at_Some _ _ _ Hfile). simpl.
  unfold read_text. rewrite Hfile, Hdoc. simpl.
  destruct (rewriteManifest repoName doc) as [out|e]; simpl.
  - unfold write_text. rewrite Hfile. simpl.
    rewrite <- !app_assoc. reflexivity.
  - rewrite <- !app_assoc. reflexivity.
Qed.

End Invoke.

(** C1 (where the code falls short of the specification): on the manifest
    and the repo name of the repository's own test, [updatePackageJson]
    succeeds and writes [name] as [@example/repo] and [version] as [0.0.1],
    but the addresses it writes for [repository], [homepage] and [bugs.url]
    are [https://github.com/@example/repo] and
    [https://github.com/@example/repo/issues]: they carry an [@] that the
    specification, and the repository's test, do not have. *)
Theorem updatePackageJson_urls_carry_at :
  let P := stub [test_manifest] [] in
  let pkg := "/path/to/repository/package.json" in
  let r := invoke P (updatePackageJson "/path/to/repository" "example/repo")
             (on_disk test_disk) in
  r.1 = Ok tt
  /\ trace r.2
     = [Done (fse_pathExists pkg) (Ok true);
        Done (fse_readJson pkg) (Ok test_manifest);
        Done (fse_writeJson pkg
                (JObj [("name", JStr "@example/repo");
                       ("bugs",
                        JObj [("url",
                               JStr "https://github.com/@example/repo/issues")]);
                       ("repository", JStr "https://github.com/@example/repo");
                       ("homepage", JStr "https://github.com/@example/repo");
                       ("version", JStr "0.0.1")]))
          (Ok tt)].
Proof. split; vm_compute; reflexivity. Qed.

(** C4: whenever [updatePackageJson] succeeds on an object manifest, the
    manifest it leaves on disk has no top-level field whose key starts with
    an underscore, and every other field outside [name], [repository],
    [homepage], [bugs] and [version] is as it was in the input. *)
Theorem updatePackageJson_frame (P : platform) (w w' : world)
    (repoFolder repoName text : string) (fields : list (string * json)) :
  disk w !! join repoFolder "package.json" = Some (File text) ->
  JSON_parse P text = Some (JObj fields) ->
  invoke P (updatePackageJson repoFolder repoName) w = (Ok tt, w') ->
  exists out,
    disk w' !! join repoFolder "package.json"
    = Some (File (JSON_stringify P (JObj out)))
    /\ (forall k, startsWith k "_" = true -> obj_get k out = None)
    /\ (forall k, startsWith k "_" = false ->
          k ∉ ["name"; "repository"; "homepage"; "bugs"; "version"] ->
          obj_get k out = obj_get k fields).
Proof.
  intros Hfile Hdoc Hrun.
  rewrite (invoke_updatePackageJson P _ _ _ _ _ Hfile Hdoc) in Hrun.
  destruct (rewriteManifest repoName (JObj fields)) as [out|e] eqn:Hout;
    [|discriminate Hrun].
  destruct (rewriteManifest_object _ _ _ Hout)
    as (out' & -> & _ & _ & _ & _ & _ & Hpurged & Hkept).
  injection Hrun as <-. exists out'. simpl.
  rewrite lookup_insert_eq. auto.
Qed.

Lemma updatePackageJson_frame_witness :
  exists out,
    disk (invoke bundled (updatePackageJson "/opt/aio-lib-template" "org/bar")
            (on_disk template_disk)).2
      !! join "/opt/aio-lib-template" "package.json"
    = Some (File (stringify (JObj out)))
    /\ (forall k, startsWith k "_" = true -> obj_get k out = None)
    /\ (forall k, startsWith k "_" = false ->
          k ∉ ["name"; "repository"; "homepage"; "bugs"; "version"] ->
          obj_get k out
          = obj_get k
              [("name", JStr "@adobe/aio-lib-template");
               ("version", JStr "1.2.4");
               ("license", JStr "Apache-2.0");
               ("bugs",
                JObj [("url",
                       JStr "https://github.com/adobe/aio-lib-template/issues")]);
               ("_template", JBool true)]).
Proof.
  apply (updatePackageJson_frame bundled (on_disk template_disk) _
           "/opt/aio-lib-template" "org/bar" (stringify template_manifest)).
  - vm_compute. reflexivity.
  - vm_compute. reflexivity.
  - vm_compute. reflexivity.
Defined.

(** ** Substitution *)

Lemma GetSubstitution_literal template matched before after :
  no_dollar template = true ->
  GetSubstitution template matched before after = template.
Proof.
  induction template as [|c rest IH]; simpl; [reflexivity|].
  intros [Hc Hrest]%andb_prop.
  destruct (Ascii.eqb c "$"); [discriminate|].
  rewrite IH by assumption. reflexivity.
Qed.

(** With a replacer that gives [value] for every match, the scan of
    [String.prototype.replace] is the replacement of the specification. *)
Lemma replace_scan_literal text replacer value :
  text <> "" ->
  (forall matched before after, replacer matched before after = Ok value) ->
  forall s skip before,
    replace_scan text replacer skip before s
    = Ok (replace_from text value skip s).
Proof.
  intros Htext Hrep. destruct text as [|t text]; [contradiction|].
  induction s as [|c rest IH]; intros skip before; [reflexivity|].
  destruct skip as [|n]; [|apply IH].
  cbn [replace_scan replace_from].
  destruct (String.prefix (String t text) (String c rest)).
  - rewrite Hrep, IH. reflexivity.
  - rewrite IH. reflexivity.
Qed.

Lemma escapeChar_other c x rest :
  Ascii.eqb x c = false ->
  escapeChar c (String x rest) = String x (escapeChar c rest).
Proof. intros H. simpl. rewrite H. reflexivity. Qed.

(** Escaping the braces makes the pattern denote the token itself: no
    brace is read as pattern syntax. *)
Lemma RegExp_escapeCurly from :
  brace_text from = true -> RegExp (escapeCurly from) = Some from.
Proof.
  unfold escapeCurly.
  induction from as [|c rest IH]; [reflexivity|].
  simpl brace_text. intros [Hc Hrest]%andb_prop. specialize (IH Hrest).
  destruct (Ascii.eqb_spec c "{") as [->|Hopen].
  { simpl. simpl in IH. rewrite IH. reflexivity. }
  destruct (Ascii.eqb_spec c "}") as [->|Hclose].
  { simpl. simpl in IH. rewrite IH. reflexivity. }
  simpl in Hc. apply negb_true_iff in Hc.
  assert (Hb : Ascii.eqb c "\" = false).
  { destruct (Ascii.eqb_spec c "\") as [->|]; [discriminate Hc|reflexivity]. }
  assert (Ho : Ascii.eqb c "{" = false) by (apply Ascii.eqb_neq; assumption).
  assert (Hcl : Ascii.eqb c "}" = false) by (apply Ascii.eqb_neq; assumption).
  rewrite (escapeChar_other _ _ _ Ho), (escapeChar_other _ _ _ Hcl).
  simpl. rewrite Hb, Hc, IH. reflexivity.
Qed.

(** The three tokens of the table. *)
Lemma own_token libName repoName from to :
  obj_get from (toFrom libName repoName) = Some to ->
  from ∈ ["{{REPO}}"; "{{LIB_NAME}}"; "LibNameCoreAPI"].
Proof.
  unfold toFrom. simpl.
  destruct (String.eqb_spec from "{{REPO}}") as [->|_]; [set_solver|].
  destruct (String.eqb_spec from "{{LIB_NAME}}") as [->|_]; [set_solver|].
  destruct (String.eqb_spec from "LibNameCoreAPI") as [->|_]; [set_solver|].
  discriminate.
Qed.

(** Every token that [replaceText] turns into a pattern is a text, so
    [String_replace] never meets a pattern outside the fragment of
    [RegExp]. *)
Lemma resolved_pattern_is_text libName repoName from :
  defined (prop (toFrom libName repoName) from) = true ->
  RegExp (escapeCurly from) = Some from.
Proof.
  unfold prop. intros H.
  destruct (obj_get from (toFrom libName repoName)) as [to|] eqn:Hown.
  - apply own_token in Hown.
    repeat (apply elem_of_cons in Hown as [->|Hown]; [reflexivity|]).
    inversion Hown.
  - destruct (existsb (String.eqb from) Object_prototype) eqn:Hin;
      [|discriminate H].
    apply existsb_exists in Hin as (name & Hname & ->%String.eqb_eq).
    unfold Object_prototype in Hname. simpl in Hname.
    repeat (destruct Hname as [<-|Hname]; [reflexivity|]).
    destruct Hname.
Qed.

(** A token the lookup finds nothing for gets the diagnostic, and the text
    stays as it is. *)
Lemma replaceToken_unmapped toFrom fileContents from :
  defined (prop toFrom from) = false ->
  replaceToken toFrom fileContents from
  = Emit (no_mapping from) (Return fileContents).
Proof. intros H. unfold replaceToken. rewrite H. reflexivity. Qed.

Lemma unknown_token_skipped libName repoName fileContents from :
  obj_get from (toFrom libName repoName) = None ->
  existsb (String.eqb from) Object_prototype = false ->
  replaceToken (toFrom libName repoName) fileContents from
  = Emit (no_mapping from) (Return fileContents).
Proof.
  intros Hown Hinherited. apply replaceToken_unmapped.
  unfold prop. rewrite Hown, Hinherited. reflexivity.
Qed.

(** The lookup finds nothing exactly for a token that is no key of the
    table and no member of [Object.prototype], and for [{{REPO}}] when the
    repo name is empty. *)
Lemma defined_toFrom libName repoName from :
  libName <> "" ->
  defined (prop (toFrom libName repoName) from)
  = if from =? "{{REPO}}" then negb (repoName =? "")
    else if from =? "{{LIB_NAME}}" then true
    else if from =? "LibNameCoreAPI" then true
    else existsb (String.eqb from) Object_prototype.
Proof.
  intros Hlib. apply String.eqb_neq in Hlib.
  unfold prop. set (inherited := existsb (String.eqb from) Object_prototype).
  unfold toFrom. simpl.
  destruct (from =? "{{REPO}}"); [reflexivity|].
  destruct (from =? "{{LIB_NAME}}"); [simpl; rewrite Hlib; reflexivity|].
  destruct (from =? "LibNameCoreAPI"); [simpl; rewrite Hlib; reflexivity|].
  destruct inherited; reflexivity.
Qed.

(** C5 (as amended): for every token of the table - [{{REPO}}] and
    [{{LIB_NAME}}] are the ones with braces - and every file content, when
    the resolved value is not empty and holds no [$], the substitution step
    gives the content with every occurrence of the token text replaced by
    the value, a global literal-text replacement: the escaped braces stand
    for themselves and are not read as pattern syntax. *)
Theorem replaceToken_literal
    (libName repoName from to fileContents : string) :
  obj_get from (toFrom libName repoName) = Some to ->
  to <> "" ->
  no_dollar to = true ->
  replaceToken (toFrom libName repoName) fileContents from
  = Return (replace_all from to fileContents).
Proof.
  intros Hown Hto Hdollar. unfold replaceToken, prop. rewrite Hown.
  assert (Hdef : negb (to =? "") = true).
  { apply negb_true_iff. apply String.eqb_neq. exact Hto. }
  simpl. rewrite Hdef. simpl.
  assert (Htext : brace_text from = true /\ from <> "").
  { apply own_token in Hown.
    repeat (apply elem_of_cons in Hown as [->|Hown];
            [split; [reflexivity|discriminate]|]).
    inversion Hown. }
  destruct Htext as [Htext Hne].
  unfold String_replace. rewrite (RegExp_escapeCurly _ Htext).
  rewrite (replace_scan_literal from (replacer (Str to)) to Hne).
  - unfold replace_all. apply String.eqb_neq in Hne. rewrite Hne. reflexivity.
  - intros. simpl. rewrite GetSubstitution_literal by assumption. reflexivity.
Qed.

Lemma replaceToken_literal_witness :
  replaceToken (toFrom "Foo" "org/bar")
    "# {{LIB_NAME}}: new {{LIB_NAME}}()" "{{LIB_NAME}}"
  = Return "# Foo: new Foo()".
Proof.
  apply (replaceToken_literal "Foo" "org/bar" "{{LIB_NAME}}" "Foo").
  - reflexivity.
  - discriminate.
  - reflexivity.
Defined.

(** C5 (counterexample): with the repo name [a$&b], the substitution step
    on [x {{REPO}} y] does not give the global literal replacement
    [x a$&b y]; it gives [x a{{REPO}}b y], for [$&] in the value is read as
    "the match". *)
Lemma replaceToken_expands_dollar :
  replaceToken (toFrom "Foo" "a$&b") "x {{REPO}} y" "{{REPO}}"
  = Return "x a{{REPO}}b y"
  /\ replace_all "{{REPO}}" "a$&b" "x {{REPO}} y" = "x a$&b y"
  /\ replaceToken (toFrom "Foo" "a$&b") "x {{REPO}} y" "{{REPO}}"
     <> Return (replace_all "{{REPO}}" "a$&b" "x {{REPO}} y").
Proof. repeat split. discriminate. Qed.

(** The scan hands the replacer the text of the pattern as the match, so
    a replacer that gives [value] for that match makes the scan the
    replacement of the text by [value]. *)
Lemma replace_scan_match text replacer value :
  text <> "" ->
  (forall before after, replacer text before after = Ok value) ->
  forall s skip before,
    replace_scan text replacer skip before s
    = Ok (replace_from text value skip s).
Proof.
  intros Htext Hrep. destruct text as [|t text]; [contradiction|].
  induction s as [|c rest IH]; intros skip before; [reflexivity|].
  destruct skip as [|n]; [|apply IH].
  cbn [replace_scan replace_from].
  destruct (String.prefix (String t text) (String c rest)).
  - rewrite Hrep, IH. reflexivity.
  - rewrite IH. reflexivity.
Qed.

(** C9: token substitution does not insert the resolved value literally
    when it holds a replacement pattern. With the repo name [a$&b], the
    substitution step reads [$&] as "the match": on every file content it
    puts [a{{REPO}}b], not [a$&b], in place of each [{{REPO}}]. So for the
    content [x {{REPO}} y], which holds the token, [replaceText] writes
    [x a{{REPO}}b y] to the file, in whatever order its operations
    complete, and the file holds that text at rest; the content with each
    occurrence of the token replaced by the value itself is
    [x a$&b y], which is another text. *)
Theorem replaceText_dollar_pattern :
  let repoName := "a$&b" in
  let fileContents := "x {{REPO}} y" in
  let written := "x a{{REPO}}b y" in
  occurs "$&" repoName = true
  /\ occurs "{{REPO}}" fileContents = true
  /\ (forall text,
        replaceToken (toFrom "Foo" repoName) text "{{REPO}}"
        = Return (replace_all "{{REPO}}" "a{{REPO}}b" text))
  /\ forallb
       (fun w =>
          at_rest w
          && existsb (is_write "/work/Foo/a.txt" written) (trace w)
          && holds "/work/Foo/a.txt" written w)
       (outcomes (stub [] []) 4
          (start (stub [] [])
             (replaceText "/work/Foo" [("{{REPO}}", ["a.txt"])] "Foo" repoName)
             (on_disk {[ "/work/Foo/a.txt" := File fileContents ]})))
     = true
  /\ replace_all "{{REPO}}" repoName fileContents = "x a$&b y"
  /\ written <> replace_all "{{REPO}}" repoName fileContents.
Proof.
  cbv zeta. repeat split; try (vm_compute; reflexivity); [|discriminate].
  intros text. unfold replaceToken, String_replace. cbn.
  rewrite (replace_scan_match "{{REPO}}" _ "a{{REPO}}b");
    [reflexivity | discriminate | reflexivity].
Qed.

(** ** The files of the manifest *)

Lemma includes_In l x : includes l x = true <-> In x l.
Proof.
  unfold includes. rewrite existsb_exists. split.
  - intros (y & Hy & ->%String.eqb_eq). exact Hy.
  - intros H. exists x. split; [exact H | apply String.eqb_refl].
Qed.

Lemma new_Set_In l x : In x (new_Set l) -> In x l.
Proof.
  unfold new_Set.
  assert (H : forall acc, In x (fold_left
              (fun set y => if includes set y then set else set ++ [y])
              l acc) -> In x acc \/ In x l).
  { induction l as [|y l IH]; intros acc Hx; simpl in *; [auto|].
    apply IH in Hx as [Hx|Hx]; [|auto].
    destruct (includes acc y); [auto|].
    apply in_app_or in Hx as [Hx|[<-|[]]]; auto. }
  intros Hx. apply H in Hx as [[]|Hx]. exact Hx.
Qed.

(** Every path of the set is listed under a token of the manifest. *)
Lemma pathItemSet_listed paramsJson pathItem :
  In pathItem (pathItemSet paramsJson) ->
  exists token, In token (Object_keys paramsJson)
                /\ In pathItem (paths_of paramsJson token).
Proof.
  unfold pathItemSet.
  assert (H : forall keys acc,
            In pathItem (fold_left
              (fun set key => new_Set (set ++ paths_of paramsJson key))
              keys acc) ->
            In pathItem acc
            \/ exists token, In token keys
                             /\ In pathItem (paths_of paramsJson token)).
  { induction keys as [|key keys IH]; intros acc Hx; simpl in *; [auto|].
    apply IH in Hx as [Hx|(token & Hin & Hx)].
    - apply new_Set_In, in_app_or in Hx as [Hx|Hx]; eauto.
    - eauto. }
  intros Hx. apply H in Hx as [[]|Hx]. exact Hx.
Qed.

(** So the guard [tokens.length > 0] holds for every file the stage
    reads: it counts the tokens that list the file, mapped or not. *)
Lemma tokens_nonempty paramsJson pathItem :
  In pathItem (pathItemSet paramsJson) -> tokens paramsJson pathItem <> [].
Proof.
  intros (token & Hkey & Hpath)%pathItemSet_listed Hnil.
  assert (Hin : In token (tokens paramsJson pathItem)).
  { unfold tokens. apply filter_In. split; [exact Hkey|].
    apply includes_In. exact Hpath. }
  rewrite Hnil in Hin. destruct Hin.
Qed.

(** ** One file of the substitution stage *)

Section ReplaceFile.
Context (P : platform).

(** The loop over the tokens touches neither the disk nor the queue, and
    hands the text on whatever happens to a token. *)
Lemma invoke_forEach_token toFrom tokens fileContents w :
  exists out events,
    invoke P (forEach_token toFrom tokens fileContents) w
    = (Ok out, extend w events).
Proof.
  revert fileContents w.
  induction tokens as [|from rest IH]; intros fileContents w.
  - exists fileContents, []. rewrite extend_nil. reflexivity.
  - cbn [forEach_token]. rewrite invoke_settle.
    unfold replaceToken.
    destruct (defined (prop toFrom from)) eqn:Hdef; cbn [negb].
    + destruct (prop toFrom from) as [to|]; [|discriminate Hdef].
      destruct (String_replace fileContents (escapeCurly from) to) as [out|e];
        cbn.
      * apply IH.
      * rewrite record_extend.
        destruct (IH fileContents (extend w [Unhandled e]))
          as (out & events & ->).
        exists out, (Unhandled e :: events).
        rewrite extend_extend. reflexivity.
    + cbn. fold (no_mapping from). rewrite record_extend.
      destruct (IH fileContents (extend w [no_mapping from]))
        as (out & events & ->).
      exists out, (no_mapping from :: events).
      rewrite extend_extend. reflexivity.
Qed.

(** When no token of the file has a mapping, the text stays as it is and
    every token gets its diagnostic. *)
Lemma invoke_forEach_token_unmapped toFrom tokens fileContents w :
  Forall (fun from => defined (prop toFrom from) = false) tokens ->
  invoke P (forEach_token toFrom tokens fileContents) w
  = (Ok fileContents, extend w (map no_mapping tokens)).
Proof.
  intros H. revert w. induction H as [|from rest Hdef _ IH]; intros w.
  - rewrite extend_nil. reflexivity.
  - cbn [forEach_token]. rewrite invoke_settle.
    unfold replaceToken. rewrite Hdef. cbn. fold (no_mapping from).
    rewrite record_extend, IH, extend_extend. reflexivity.
Qed.

End ReplaceFile.

(** C3 (as amended): in the Token Substitution stage a file is written
    back whenever the parameter manifest lists it under at least one token,
    whether or not the table resolves that token: every file of the set,
    once read, is written. In particular, a file all of whose tokens have
    no mapping is written back with the very text that was read - its
    content does not change - and a diagnostic is emitted for each of its
    tokens. *)
Theorem replaceFile_writes_back (P : platform) (w : world)
    (repoFolder libName repoName pathItem text : string) (paramsJson : params) :
  let filePath := join repoFolder pathItem in
  let toFrom := toFrom libName repoName in
  let r := invoke P (replaceFile repoFolder paramsJson toFrom pathItem) w in
  In pathItem (pathItemSet paramsJson) ->
  disk w !! filePath = Some (File text) ->
  (exists written events,
      r = (Ok tt,
           {| disk := <[filePath := File written]> (disk w);
              pending := pending w;
              trace := trace w
                       ++ Done (fse_readFile filePath) (Ok text) :: events
                       ++ [Done (fse_writeFile filePath written) (Ok tt)] |}))
  /\ (Forall (fun from => defined (prop toFrom from) = false)
        (tokens paramsJson pathItem) ->
      r = (Ok tt,
           {| disk := disk w;
              pending := pending w;
              trace := trace w
                       ++ Done (fse_readFile filePath) (Ok text)
                          :: map no_mapping (tokens paramsJson pathItem)
                       ++ [Done (fse_writeFile filePath text) (Ok tt)] |})).
Proof.
  intros filePath toFrom r Hlisted Hfile.
  assert (Hguard : (0 <? length (tokens paramsJson pathItem))%nat = true).
  { apply tokens_nonempty in Hlisted.
    destruct (tokens paramsJson pathItem); [contradiction|reflexivity]. }
  assert (Hr : forall out events,
            invoke P (forEach_token toFrom (tokens paramsJson pathItem) text)
              (extend w [Done (fse_readFile filePath) (Ok text)])
            = (Ok out,
               extend (extend w [Done (fse_readFile filePath) (Ok text)])
                 events) ->
            r = (Ok tt,
                 {| disk := <[filePath := File out]> (disk w);
                    pending := pending w;
                    trace := trace w
                             ++ Done (fse_readFile filePath) (Ok text) :: events
                             ++ [Done (fse_writeFile filePath out) (Ok tt)] |})).
  { intros out events Hloop. subst r. unfold replaceFile. fold filePath.
    rewrite invoke_bind, invoke_await. unfold perform at 1 2.
    cbn [exec fst snd]. unfold read_text. rewrite Hfile.
    rewrite invoke_bind. unfold extend in Hloop.
    cbn [disk pending trace] in Hloop.
    rewrite Hloop. cbn [fst snd]. rewrite Hguard, invoke_await.
    unfold perform. cbn [exec fst snd disk pending trace].
    unfold write_text. rewrite Hfile. cbn [fst snd].
    rewrite <- !app_assoc. reflexivity. }
  split.
  - destruct (invoke_forEach_token P toFrom (tokens paramsJson pathItem) text
                (extend w [Done (fse_readFile filePath) (Ok text)]))
      as (out & events & Hloop).
    exists out, events. apply Hr. exact Hloop.
  - intros Hunmapped.
    rewrite (Hr text (map no_mapping (tokens paramsJson pathItem))).
    + rewrite insert_id by exact Hfile. reflexivity.
    + apply invoke_forEach_token_unmapped. exact Hunmapped.
Qed.

Lemma replaceFile_writes_back_witness :
  invoke (stub [] [])
    (replaceFile "/work/Foo" example_params (toFrom "Foo" "org/bar") "b.txt")
    (on_disk example_disk)
  = (Ok tt,
     {| disk := example_disk;
        pending := [];
        trace := [Done (fse_readFile "/work/Foo/b.txt") (Ok "plain text");
                  ConsoleError
                    "No mapping found, skipping replace of UNKNOWN_TOKEN";
                  Done (fse_writeFile "/work/Foo/b.txt" "plain text")
                    (Ok tt)] |}).
Proof.
  apply (replaceFile_writes_back (stub [] []) (on_disk example_disk)
           "/work/Foo" "Foo" "org/bar" "b.txt" "plain text" example_params).
  - vm_compute. auto.
  - vm_compute. reflexivity.
  - repeat constructor.
Defined.

(** C3 (counterexample): with the parameter manifest of the
    specification's example, [b.txt] is listed under [UNKNOWN_TOKEN] only,
    a token the table has no entry for; yet in whatever order the
    operations complete, the stage comes to rest having written [b.txt]
    back. *)
Lemma unknown_only_file_is_written_back :
  tokens example_params "b.txt" = ["UNKNOWN_TOKEN"]
  /\ prop (toFrom "Foo" "org/bar") "UNKNOWN_TOKEN" = None
  /\ forallb
       (fun w =>
          at_rest w
          && existsb (is_write "/work/Foo/b.txt" "plain text") (trace w)
          && existsb is_console_error (trace w))
       (outcomes (stub [] []) 6
          (start (stub [] [])
             (replaceText "/work/Foo" example_params "Foo" "org/bar")
             (on_disk example_disk)))
     = true.
Proof. repeat split; vm_compute; reflexivity. Qed.

(** C6 (where the code falls short of the specification): the token
    [toString] has no entry in the table, yet the lookup finds the member
    every object inherits. In whatever order the operations complete, the stage emits no
    diagnostic and writes [index.js] back with [toString] replaced by
    [[object Undefined]]. *)
Theorem inherited_name_is_substituted :
  obj_get "toString" (toFrom "Foo" "org/bar") = None
  /\ forallb
       (fun w =>
          at_rest w
          && negb (existsb is_console_error (trace w))
          && existsb (is_write "/work/Foo/index.js" "x.[object Undefined]()")
               (trace w))
       (outcomes (stub [] []) 4
          (start (stub [] [])
             (replaceText "/work/Foo" inherited_params "Foo" "org/bar")
             (on_disk inherited_disk)))
     = true.
Proof. split; vm_compute; reflexivity. Qed.

(** ** The event loop *)

Section Loop.
Context (P : platform).

(** [outcomes] misses no run that comes to rest. *)
Lemma run_in_outcomes s : forall fuel w,
  fair P s w -> pending (run_schedule P s w) = [] -> (length s <= fuel)%nat ->
  In (run_schedule P s w) (outcomes P fuel w).
Proof.
  induction s as [|i s IH]; intros fuel w Hfair Hrest Hfuel; simpl in *.
  - destruct fuel; simpl; [|rewrite Hrest]; left; reflexivity.
  - destruct Hfair as [Hi Hfair].
    destruct fuel as [|fuel]; [lia|]. simpl.
    destruct (pending w) as [|j js] eqn:Hp; [simpl in Hi; lia|].
    apply in_flat_map. exists i. split.
    + apply in_seq. simpl in *. lia.
    + apply IH; [exact Hfair | exact Hrest | lia].
Qed.

(** [replaceText] is over before any file is read: it starts one call
    per path, each of which stops at its read, and its promise is fulfilled
    with all the reads under way. *)
Lemma replaceText_settles_at_once
    (repoFolder libName repoName : string) (paramsJson : params)
    (d : gmap string node) :
  let w := start P (observe (replaceText repoFolder paramsJson libName repoName))
             (on_disk d) in
  disk w = d
  /\ trace w = [Settled (Ok tt)]
  /\ map job_op (pending w)
     = map (fun pathItem => Issued (fse_readFile (join repoFolder pathItem)))
         (pathItemSet paramsJson).
Proof.
  unfold replaceText, observe.
  generalize (pathItemSet paramsJson) as paths.
  set (body := replaceFile repoFolder paramsJson (toFrom libName repoName)).
  assert (H : forall paths (f : result unit -> prog unit) w,
            exists jobs,
              start P (settle (forEach_async paths body) f) w
              = start P (f (Ok tt))
                  {| disk := disk w; pending := pending w ++ jobs;
                     trace := trace w |}
              /\ map job_op jobs
                 = map (fun pathItem =>
                          Issued (fse_readFile (join repoFolder pathItem)))
                     paths).
  { induction paths as [|pathItem paths IH]; intros f w.
    - exists []. rewrite app_nil_r. destruct w. split; reflexivity.
    - cbn [forEach_async settle start].
      destruct (IH f (start P (body pathItem) w)) as (jobs & -> & Hjobs).
      eexists (_ :: jobs). split.
      + cbn. rewrite <- app_assoc. reflexivity.
      + cbn. rewrite Hjobs. reflexivity. }
  intros paths. destruct (H paths
    (fun r => emit (Settled match r with Ok _ => Ok tt | Fail e => Fail e end))
    (on_disk d)) as (jobs & -> & Hjobs).
  cbn. repeat split. exact Hjobs.
Qed.

(** When every job under way was dropped, a completion settles nothing
    that is observed, and leaves such jobs only. *)
Lemma complete_dropped i w :
  Forall dropped (pending w) ->
  Forall dropped (pending (complete P i w))
  /\ exists events,
       trace (complete P i w) = trace w ++ events /\ quiet events.
Proof.
  intros Hall. unfold complete.
  destruct (pending w !! i) as [j|] eqn:Hj.
  - assert (Hd : dropped j).
    { eapply Forall_lookup_1; eassumption. }
    destruct Hd as [B o]. unfold perform. cbn [fst snd disk pending trace].
    destruct (exec P o (disk w)) as [[b|e] d]; cbn.
    + split; [apply Forall_delete; exact Hall|].
      eexists. split; [reflexivity|]. repeat constructor.
    + split; [apply Forall_delete; exact Hall|].
      eexists. rewrite <- app_assoc. split; [reflexivity|].
      repeat constructor.
  - split; [exact Hall|]. exists []. rewrite app_nil_r.
    split; [reflexivity | constructor].
Qed.

Lemma run_schedule_dropped s : forall w,
  Forall dropped (pending w) ->
  exists events, trace (run_schedule P s w) = trace w ++ events /\ quiet events.
Proof.
  induction s as [|i s IH]; intros w Hall; simpl.
  - exists []. rewrite app_nil_r. split; [reflexivity | constructor].
  - destruct (complete_dropped i w Hall) as (Hall' & ev1 & Ht1 & Hq1).
    destruct (IH _ Hall') as (ev2 & Ht2 & Hq2).
    exists (ev1 ++ ev2). rewrite Ht2, Ht1, app_assoc.
    split; [reflexivity | apply Forall_app; split; assumption].
Qed.

(** C10: on every disk, [cleanup] returns with success at once: it issues
    the two removals and the two renames and drops their promises, so all
    four are still under way when it returns. Whatever the order in which
    they complete, and whether they succeed or fail, the promise of
    [cleanup] is fulfilled and nothing settles it otherwise. *)
Theorem cleanup_always_fulfils (d : gmap string node) (repoFolder : string)
    (schedule : list nat) :
  invoke P (cleanup repoFolder) (on_disk d)
  = (Ok tt,
     {| disk := d;
        pending :=
          [Job (fse_remove (join repoFolder "types.d.ts")) unobserved;
           Job (fse_remove (join repoFolder "template.parameters.json"))
             unobserved;
           Job (fse_move (join repoFolder "gitignore.template")
                  (join repoFolder ".gitignore")) unobserved;
           Job (fse_move (join repoFolder "npmrc.template")
                  (join repoFolder ".npmrc")) unobserved];
        trace := [] |})
  /\ exists events,
       trace (run_schedule P schedule
                (start P (observe (cleanup repoFolder)) (on_disk d)))
       = Settled (Ok tt) :: events
       /\ quiet events.
Proof.
  split; [reflexivity|].
  destruct (run_schedule_dropped schedule
              (start P (observe (cleanup repoFolder)) (on_disk d)))
    as (events & Ht & Hq).
  - cbn. repeat constructor.
  - exists events. rewrite Ht. split; [reflexivity | exact Hq].
Qed.

End Loop.

(** A rename that fails under [cleanup]: the template has no
    [npmrc.template], the move is rejected, and [cleanup] is fulfilled all
    the same. *)
Example cleanup_failed_move :
  trace (drain bundled 4
           (start bundled (observe (cleanup "/opt/aio-lib-template"))
              (on_disk template_disk)))
  = [Settled (Ok tt);
     Done (fse_remove "/opt/aio-lib-template/types.d.ts") (Ok tt);
     Done (fse_remove "/opt/aio-lib-template/template.parameters.json")
       (Ok tt);
     Done (fse_move "/opt/aio-lib-template/gitignore.template"
             "/opt/aio-lib-template/.gitignore") (Ok tt);
     Done (fse_move "/opt/aio-lib-template/npmrc.template"
             "/opt/aio-lib-template/.npmrc")
       (Fail "ENOENT: no such file or directory, lstat '/opt/aio-lib-template/npmrc.template'");
     Unhandled "ENOENT: no such file or directory, lstat '/opt/aio-lib-template/npmrc.template'"].
Proof. vm_compute. reflexivity. Qed.

(** ** Paths and copies *)

Lemma append_cons c a b : String c a +:+ b = String c (a +:+ b).
Proof. reflexivity. Qed.

Lemma prefix_cons c a c' p :
  String.prefix (String c a) (String c' p)
  = if ascii_dec c c' then String.prefix a p else false.
Proof. reflexivity. Qed.

Lemma prefix_empty p : String.prefix "" p = true.
Proof. destruct p; reflexivity. Qed.

Lemma prefix_app_r a : forall p q,
  String.prefix a p = true -> String.prefix a (p +:+ q) = true.
Proof.
  induction a as [|c a IH]; intros p q H; [apply prefix_empty|].
  destruct p as [|c' p]; [discriminate H|].
  rewrite append_cons, prefix_cons in *.
  destruct (ascii_dec c c'); [apply IH; exact H | discriminate H].
Qed.

Lemma prefix_drop a : forall p,
  String.prefix a p = true -> p = a +:+ string_drop (String.length a) p.
Proof.
  induction a as [|c a IH]; intros p H; [reflexivity|].
  destruct p as [|c' p]; [discriminate H|]. rewrite prefix_cons in H.
  destruct (ascii_dec c c') as [->|]; [|discriminate H].
  rewrite append_cons. f_equal. apply IH. exact H.
Qed.

Lemma prefix_app_l a b : forall p,
  String.prefix (a +:+ b) p = true -> String.prefix a p = true.
Proof.
  induction a as [|c a IH]; intros p H; [apply prefix_empty|].
  rewrite append_cons in H.
  destruct p as [|c' p]; [discriminate H|]. rewrite prefix_cons in *.
  destruct (ascii_dec c c'); [apply IH; exact H | discriminate H].
Qed.

Lemma append_empty_r s : s +:+ "" = s.
Proof.
  induction s as [|c s IH]; [reflexivity|].
  rewrite append_cons, IH. reflexivity.
Qed.

Lemma append_inv_head a x y : a +:+ x = a +:+ y -> x = y.
Proof.
  induction a as [|c a IH]; intros H; [exact H|].
  rewrite !append_cons in H. injection H as H. apply IH. exact H.
Qed.

Lemma under_eq root p rest : under root p = Some rest -> p = root +:+ rest.
Proof.
  unfold under. destruct (String.eqb_spec p root) as [->|_].
  - intros [= <-]. rewrite append_empty_r. reflexivity.
  - destruct (String.prefix (root +:+ "/") p) eqn:Hpre; [|discriminate].
    intros [= <-]. apply prefix_drop. eapply prefix_app_l. exact Hpre.
Qed.

Lemma elem_of_relocate src dest entries p n rest :
  (p, n) ∈ entries -> under src p = Some rest ->
  (dest +:+ rest, n) ∈ relocate src dest entries.
Proof.
  intros Hin Hrest. unfold relocate. apply list_elem_of_omap.
  exists (p, n). split; [exact Hin|]. simpl. rewrite Hrest. reflexivity.
Qed.

Lemma relocate_keys src dest entries q :
  q ∈ (relocate src dest entries).*1 ->
  exists p rest,
    p ∈ entries.*1 /\ under src p = Some rest /\ q = dest +:+ rest.
Proof.
  intros ([q' n] & -> & Hin)%list_elem_of_fmap.
  apply list_elem_of_omap in Hin as ([p n'] & Hin & Hp). simpl in Hp.
  destruct (under src p) as [rest|] eqn:Hrest; [|discriminate Hp].
  injection Hp as <- <-. exists p, rest. repeat split; [|exact Hrest].
  apply list_elem_of_fmap. exists (p, n'). split; [reflexivity | exact Hin].
Qed.

Lemma NoDup_relocate src dest entries :
  NoDup entries.*1 -> NoDup (relocate src dest entries).*1.
Proof.
  induction entries as [|[p n] entries IH]; intros Hnd; [constructor|].
  apply NoDup_cons in Hnd as [Hp Hnd]. unfold relocate. simpl.
  destruct (under src p) as [rest|] eqn:Hrest; simpl; [|apply IH; exact Hnd].
  apply NoDup_cons. split; [|apply IH; exact Hnd].
  intros (p' & rest' & Hin & Hrest' & Heq)%relocate_keys.
  apply append_inv_head in Heq as <-.
  apply under_eq in Hrest, Hrest'. subst. contradiction.
Qed.

(** Every entry of the source has its place among the entries seen from
    the destination. *)
Lemma relocated_lookup (d : gmap string node) src dest p n rest :
  d !! p = Some n -> under src p = Some rest ->
  (list_to_map (relocate src dest (map_to_list d)) : gmap string node)
    !! (dest +:+ rest)
  = Some n.
Proof.
  intros Hp Hrest. apply elem_of_list_to_map_1.
  - apply NoDup_relocate, NoDup_fst_map_to_list.
  - eapply elem_of_relocate; [|exact Hrest].
    apply elem_of_map_to_list. exact Hp.
Qed.

(** *** Normal paths *)

Lemma append_assoc a b c : (a +:+ b) +:+ c = a +:+ (b +:+ c).
Proof.
  induction a as [|x a IH]; [reflexivity|].
  rewrite !append_cons, IH. reflexivity.
Qed.

Lemma prefix_append a x : String.prefix a (a +:+ x) = true.
Proof.
  induction a as [|c a IH]; [apply prefix_empty|].
  rewrite append_cons, prefix_cons.
  destruct (ascii_dec c c); [exact IH|contradiction].
Qed.

Lemma segments_nonempty s : segments s <> [].
Proof.
  destruct s as [|c rest]; [discriminate|]. cbn [segments].
  destruct (Ascii.eqb c "/"); [discriminate|].
  destruct (segments rest); discriminate.
Qed.

Lemma segments_name name : no_slash name = true -> segments name = [name].
Proof.
  induction name as [|c rest IH]; [reflexivity|].
  cbn [no_slash segments]. intros [Hc Hrest]%andb_prop.
  apply negb_true_iff in Hc. rewrite Hc, (IH Hrest). reflexivity.
Qed.

Lemma segments_append_name folder name :
  no_slash name = true ->
  segments (folder +:+ "/" +:+ name) = segments folder ++ [name].
Proof.
  intros Hname. induction folder as [|c rest IH].
  - change ("" +:+ "/" +:+ name) with (String "/" name).
    cbn [segments]. rewrite (segments_name _ Hname). reflexivity.
  - rewrite append_cons. cbn [segments]. rewrite IH.
    destruct (Ascii.eqb c "/"); [reflexivity|].
    destruct (segments rest) as [|seg more] eqn:Hsegs; [|reflexivity].
    destruct (segments_nonempty _ Hsegs).
Qed.

Lemma endsWithSlash_append a b :
  b <> "" -> endsWithSlash (a +:+ b) = endsWithSlash b.
Proof.
  intros Hb. induction a as [|c a IH]; [reflexivity|].
  rewrite append_cons. cbn [endsWithSlash].
  destruct (a +:+ b) eqn:Hab; [|exact IH].
  destruct a; [cbn in Hab; contradiction | discriminate Hab].
Qed.

Lemma endsWithSlash_name name :
  no_slash name = true -> endsWithSlash name = false.
Proof.
  induction name as [|c rest IH]; [reflexivity|].
  cbn [no_slash endsWithSlash]. intros [Hc Hrest]%andb_prop.
  apply negb_true_iff in Hc. destruct rest; [exact Hc | exact (IH Hrest)].
Qed.

Lemma concat_snoc segs name :
  String.concat "/" (segs ++ [name]) = slashed segs +:+ name.
Proof.
  induction segs as [|seg segs IH]; [reflexivity|].
  cbn [app slashed fold_right]. fold (slashed segs).
  rewrite !append_assoc, <- IH.
  destruct segs; reflexivity.
Qed.

Lemma append_name_nonempty a name : name <> "" -> a +:+ name <> "".
Proof. intros Hn. destruct a; [exact Hn | discriminate]. Qed.

Lemma simple_inv name :
  simple name = true ->
  name <> "" /\ (name =? "") = false /\ (name =? ".") = false
  /\ (name =? "..") = false /\ no_slash name = true.
Proof.
  unfold simple. intros [[[H1 H2]%andb_prop H3]%andb_prop H4]%andb_prop.
  apply negb_true_iff in H1, H2, H3.
  repeat split; try assumption. apply String.eqb_neq. exact H1.
Qed.

Lemma prefix_slash_append folder x :
  folder <> "" -> String.prefix "/" (folder +:+ x) = String.prefix "/" folder.
Proof.
  intros H. destruct folder as [|c folder]; [contradiction|].
  rewrite append_cons, !prefix_cons.
  destruct (ascii_dec "/" c); [|reflexivity]. rewrite !prefix_empty.
  reflexivity.
Qed.

Lemma normalizeString_name name allowAboveRoot :
  simple name = true -> normalizeString name allowAboveRoot = [name].
Proof.
  intros (Hne & He & Hdot & Hdots & Hslash)%simple_inv.
  unfold normalizeString. rewrite (segments_name _ Hslash).
  cbn [fold_left]. unfold normalizeSegment. rewrite He, Hdot, Hdots.
  reflexivity.
Qed.

Lemma normalizeString_append_name folder name allowAboveRoot :
  simple name = true ->
  normalizeString (folder +:+ "/" +:+ name) allowAboveRoot
  = normalizeString folder allowAboveRoot ++ [name].
Proof.
  intros (Hne & He & Hdot & Hdots & Hslash)%simple_inv.
  unfold normalizeString. rewrite (segments_append_name _ _ Hslash).
  rewrite fold_left_app. cbn [fold_left].
  unfold normalizeSegment at 1. rewrite He, Hdot, Hdots. reflexivity.
Qed.

(** Joining a name to a folder puts the stem of the folder in front of
    the name. *)
Lemma join_simple folder name :
  simple name = true -> join folder name = stem folder +:+ name.
Proof.
  intros Hsimple.
  pose proof (simple_inv _ Hsimple) as (Hne & He & Hdot & Hdots & Hslash).
  unfold join, stem. rewrite He.
  destruct (String.eqb_spec folder "") as [->|Hfolder].
  - rewrite He. unfold normalize. rewrite He.
    assert (Hrel : String.prefix "/" name = false).
    { destruct name as [|c rest]; [contradiction|].
      cbn [no_slash] in Hslash. apply andb_prop in Hslash as [Hc _].
      apply negb_true_iff in Hc. rewrite prefix_cons.
      destruct (ascii_dec "/" c) as [<-|]; [discriminate Hc|reflexivity]. }
    rewrite Hrel, (endsWithSlash_name _ Hslash). cbn [negb].
    rewrite (normalizeString_name _ _ Hsimple).
    cbn. rewrite He. reflexivity.
  - assert (Hjoined : (folder +:+ "/" +:+ name =? "") = false).
    { apply String.eqb_neq. destruct folder; [contradiction|discriminate]. }
    rewrite Hjoined. unfold normalize. rewrite Hjoined.
    rewrite (prefix_slash_append _ _ Hfolder).
    rewrite <- append_assoc, (endsWithSlash_append _ _ Hne),
      (endsWithSlash_name _ Hslash), append_assoc.
    rewrite (normalizeString_append_name _ _ _ Hsimple), concat_snoc.
    set (front := slashed _).
    assert (Hout : (front +:+ name =? "") = false).
    { apply String.eqb_neq, append_name_nonempty, Hne. }
    rewrite Hout.
    destruct (String.prefix "/" folder); [|reflexivity].
    rewrite append_assoc. reflexivity.
Qed.

Lemma stem_absolute folder :
  String.prefix "/" folder = true -> String.prefix "/" (stem folder) = true.
Proof.
  intros Habs. unfold stem. rewrite Habs.
  destruct (String.eqb_spec folder "") as [->|_]; [discriminate Habs|].
  apply prefix_append.
Qed.

(** The entries of a folder are below an absolute folder at an absolute
    path. *)
Lemma join_absolute folder name :
  simple name = true -> String.prefix "/" folder = true ->
  String.prefix "/" (join folder name) = true.
Proof.
  intros Hname Habs. rewrite (join_simple _ _ Hname).
  apply prefix_app_r, stem_absolute, Habs.
Qed.

Lemma eqb_append_head x a b : (x +:+ a =? x +:+ b) = (a =? b).
Proof.
  induction x as [|c x IH]; [reflexivity|].
  rewrite !append_cons. cbn. rewrite Ascii.eqb_refl. exact IH.
Qed.

Lemma prefix_append_head x a b :
  String.prefix (x +:+ a) (x +:+ b) = String.prefix a b.
Proof.
  induction x as [|c x IH]; [reflexivity|].
  rewrite !append_cons, prefix_cons.
  destruct (ascii_dec c c); [exact IH | contradiction].
Qed.

Lemma under_append_head x a b : under (x +:+ a) (x +:+ b) = under a b.
Proof.
  unfold under. rewrite eqb_append_head, append_assoc, prefix_append_head.
  destruct (b =? a); [reflexivity|].
  destruct (String.prefix (a +:+ "/") b); [|reflexivity]. f_equal.
  induction x as [|c x IH]; [reflexivity | exact IH].
Qed.

(** Whether one entry of a folder lies at or below another does not depend
    on the folder. *)
Lemma under_join folder a b :
  simple a = true -> simple b = true ->
  under (join folder a) (join folder b) = under a b.
Proof.
  intros Ha Hb. rewrite !join_simple by assumption. apply under_append_head.
Qed.

Lemma join_cancel folder a b rest :
  simple a = true -> simple b = true ->
  join folder a = join folder b +:+ rest -> a = b +:+ rest.
Proof.
  intros Ha Hb. rewrite !join_simple by assumption. rewrite append_assoc.
  apply append_inv_head.
Qed.

Lemma join_eqb folder a b :
  simple a = true -> simple b = true ->
  (join folder a =? join folder b) = (a =? b).
Proof.
  intros Ha Hb. rewrite !join_simple by assumption. apply eqb_append_head.
Qed.

(** ** The run *)

Section Run.
Context (P : platform).


(** C7 (as amended): for an absolute destination folder,
    [readParametersFile] raises the error
    "template.parameters.json does not exist in <folder>", which names the
    expected file and the folder searched, if and only if the file does not
    exist at the root of the folder. When the file exists and is
    well-formed, the stage returns the parsed mapping; when it exists and
    is not well-formed, the stage raises the parser's error. *)
Theorem readParametersFile_outcome (w : world) (repoFolder : string) :
  let paramsFile := join repoFolder "template.parameters.json" in
  let r := (invoke P (readParametersFile repoFolder) w).1 in
  String.prefix "/" repoFolder = true ->
  (r = Fail ("template.parameters.json does not exist in " +:+ repoFolder)
   <-> exists_at (disk w) paramsFile = false)
  /\ (forall text ps,
        disk w !! paramsFile = Some (File text) ->
        JSON_parse_params P text = Some ps -> r = Ok ps)
  /\ (forall text,
        disk w !! paramsFile = Some (File text) ->
        JSON_parse_params P text = None ->
        r = Fail ("SyntaxError: " +:+ paramsFile
                  +:+ ": Unexpected token in JSON")).
Proof.
  intros paramsFile r Habs. subst r. unfold readParametersFile.
  fold paramsFile. rewrite invoke_bind, invoke_await.
  unfold perform. cbn [exec fst snd].
  assert (Hroot : String.prefix "/" paramsFile = true).
  { apply join_absolute; [reflexivity | exact Habs]. }
  split; [|split].
  - destruct (exists_at (disk w) paramsFile) eqn:Hex; cbn.
    + split; [|discriminate]. rewrite Hroot. cbn.
      destruct (read_text (disk w) paramsFile) as [text|e]; cbn.
      * destruct (JSON_parse_params P text); cbn; discriminate.
      * discriminate.
    + split; reflexivity.
  - intros text ps Hfile Hps.
    rewrite (exists_at_Some _ _ _ Hfile). cbn. rewrite Hroot. cbn.
    unfold read_text. rewrite Hfile, Hps. reflexivity.
  - intros text Hfile Hps.
    rewrite (exists_at_Some _ _ _ Hfile). cbn. rewrite Hroot. cbn.
    unfold read_text. rewrite Hfile, Hps. reflexivity.
Qed.

End Run.


Lemma readParametersFile_outcome_witness :
  (invoke bundled (readParametersFile "/opt/aio-lib-template")
     (on_disk template_disk)).1
  = Ok [("{{REPO}}", ["docs/api.md"])].
Proof.
  destruct (readParametersFile_outcome bundled (on_disk template_disk)
              "/opt/aio-lib-template" eq_refl) as (_ & Hparsed & _).
  apply (Hparsed (stringify (json_of_params template_params))).
  - vm_compute. reflexivity.
  - vm_compute. reflexivity.
Defined.

(** C7 (counterexample): the parameter manifest is there, at the root of
    the destination folder, and [readParametersFile] raises an error all
    the same, for the file is not well-formed. *)
Lemma readParametersFile_malformed :
  exists_at malformed_disk "/work/foo/template.parameters.json" = true
  /\ (invoke bundled (readParametersFile "/work/foo")
        (on_disk malformed_disk)).1
     = Fail "SyntaxError: /work/foo/template.parameters.json: Unexpected token in JSON".
Proof. split; vm_compute; reflexivity. Qed.

(** C2 (where the code falls short of the specification): the parameter
    manifest of the template lists [docs/api.md], which does not exist
    under the destination folder. In whatever order the operations
    complete, the run comes to rest having started the Cleanup task after
    the Replace text task, and before the read of the missing file fails;
    [this.error] is never called, and the failure of the read ends as the
    rejection of a promise nobody observes. *)
Theorem missing_path_does_not_stop_run :
  exists_at template_disk "/opt/aio-lib-template/docs/api.md" = false
  /\ forallb
       (fun w =>
          at_rest w
          && precedes (is_stage "Replace text") (is_stage "Cleanup") (trace w)
          && precedes (is_stage "Cleanup")
               (is_unhandled
                  "ENOENT: no such file or directory, open '/work/foo/docs/api.md'")
               (trace w)
          && negb (existsb is_cli_error (trace w)))
       (outcomes bundled 16
          (start bundled (observe (run bundled library no_flags))
             (on_disk template_disk)))
     = true.
Proof. split; vm_compute; reflexivity. Qed.

(** * Further properties of the stages *)

(** ** The package manifest *)

Lemma exists_at_false (d : gmap string node) p :
  exists_at d p = false -> d !! p = None.
Proof.
  unfold exists_at. destruct (d !! p) eqn:H; [|reflexivity].
  intros Hb. exfalso. revert Hb. rewrite bool_decide_eq_false.
  intros Hn. apply Hn. eauto.
Qed.

Lemma exists_at_None (d : gmap string node) p :
  d !! p = None -> exists_at d p = false.
Proof.
  intros H. unfold exists_at. rewrite H. apply bool_decide_eq_false.
  intros [n Hn]. discriminate Hn.
Qed.

(** X1: when there is no [package.json] in the folder,
    [updatePackageJson] is rejected with
    "<folder>/package.json does not exist in <folder>" after the existence
    test alone: nothing is read and nothing is written. *)
Theorem updatePackageJson_missing_manifest (P : platform) (w : world)
    (repoFolder repoName : string) :
  let pkg := join repoFolder "package.json" in
  exists_at (disk w) pkg = false ->
  invoke P (updatePackageJson repoFolder repoName) w
  = (Fail (pkg +:+ " does not exist in " +:+ repoFolder),
     extend w [Done (fse_pathExists pkg) (Ok false)]).
Proof.
  intros pkg Hmissing. unfold updatePackageJson. fold pkg.
  rewrite invoke_bind, invoke_await. unfold perform. cbn [exec fst snd].
  rewrite Hmissing. reflexivity.
Qed.

Lemma updatePackageJson_missing_manifest_witness :
  invoke bundled (updatePackageJson "/work/foo" "org/bar") (on_disk template_disk)
  = (Fail "/work/foo/package.json does not exist in /work/foo",
     extend (on_disk template_disk)
       [Done (fse_pathExists "/work/foo/package.json") (Ok false)]).
Proof.
  apply (updatePackageJson_missing_manifest bundled (on_disk template_disk)
           "/work/foo" "org/bar").
  vm_compute. reflexivity.
Defined.

(** X2: whatever its outcome, [updatePackageJson] changes no entry of the
    disk other than [package.json] in the folder it is given, and leaves
    no operation under way. *)
Theorem updatePackageJson_touches_only_manifest (P : platform) (w : world)
    (repoFolder repoName q : string) :
  q <> join repoFolder "package.json" ->
  disk (invoke P (updatePackageJson repoFolder repoName) w).2 !! q
  = disk w !! q
  /\ pending (invoke P (updatePackageJson repoFolder repoName) w).2
     = pending w.
Proof.
  intros Hq. unfold updatePackageJson.
  set (pkg := join repoFolder "package.json") in *.
  rewrite invoke_bind, invoke_await. unfold perform. cbn [exec fst snd].
  destruct (exists_at (disk w) pkg); cbn; [|split; reflexivity].
  unfold read_text.
  destruct (disk w !! pkg) as [[text|]|] eqn:Hfile; cbn;
    try (split; reflexivity).
  destruct (JSON_parse P text) as [doc|]; cbn; [|split; reflexivity].
  destruct (rewriteManifest repoName doc) as [out|e]; cbn;
    [|split; reflexivity].
  unfold write_text. rewrite Hfile. cbn.
  split; [|reflexivity]. apply lookup_insert_ne. congruence.
Qed.

Lemma updatePackageJson_touches_only_manifest_witness :
  disk (invoke bundled (updatePackageJson "/opt/aio-lib-template" "org/bar")
          (on_disk template_disk)).2
    !! "/opt/aio-lib-template/types.d.ts"
  = Some (File "export {}").
Proof.
  destruct (updatePackageJson_touches_only_manifest bundled
              (on_disk template_disk) "/opt/aio-lib-template" "org/bar"
              "/opt/aio-lib-template/types.d.ts" ltac:(discriminate))
    as [-> _].
  vm_compute. reflexivity.
Defined.

(** X3: a manifest whose [bugs] field is a truthy value that is no object
    - the address of the tracker as a string, say - makes
    [updatePackageJson] fail at [json.bugs.url = ...]: the promise is
    rejected after the manifest was read, and nothing is written. *)
Theorem updatePackageJson_rejects_primitive_bugs (P : platform) (w : world)
    (repoFolder repoName text : string) (fields : list (string * json))
    (bugs : json) :
  let pkg := join repoFolder "package.json" in
  disk w !! pkg = Some (File text) ->
  JSON_parse P text = Some (JObj fields) ->
  obj_get "bugs" fields = Some bugs ->
  truthy_primitive bugs = true ->
  exists e,
    invoke P (updatePackageJson repoFolder repoName) w
    = (Fail e,
       extend w [Done (fse_pathExists pkg) (Ok true);
                 Done (fse_readJson pkg) (Ok (JObj fields))]).
Proof.
  intros pkg Hfile Hdoc Hbugs Hprim.
  rewrite (invoke_updatePackageJson P _ _ _ _ _ Hfile Hdoc).
  unfold rewriteManifest. rewrite Hbugs.
  destruct bugs as [|b|m e|s|items|o]; try discriminate Hprim;
    simpl in Hprim; cbn [truthy]; rewrite Hprim; eexists; reflexivity.
Qed.

Lemma updatePackageJson_rejects_primitive_bugs_witness :
  exists e,
    invoke odd_bugs (updatePackageJson "/work/foo" "org/bar")
      (on_disk string_bugs_disk)
    = (Fail e,
       extend (on_disk string_bugs_disk)
         [Done (fse_pathExists (join "/work/foo" "package.json")) (Ok true);
          Done (fse_readJson (join "/work/foo" "package.json"))
            (Ok (JObj [("name", JStr "lib");
                       ("bugs", JStr "https://example.com/issues")]))]).
Proof.
  apply (updatePackageJson_rejects_primitive_bugs odd_bugs
           (on_disk string_bugs_disk) "/work/foo" "org/bar"
           (stringify string_bugs_manifest)
           [("name", JStr "lib"); ("bugs", JStr "https://example.com/issues")]
           (JStr "https://example.com/issues")).
  - vm_compute. reflexivity.
  - vm_compute. reflexivity.
  - reflexivity.
  - reflexivity.
Defined.

(** X4: a manifest whose [bugs] field is an array is rewritten with
    success, and the array is written back as it was: the [url] that
    [updatePackageJson] puts on it is no element, so the manifest on disk
    gets no issues address. *)
Theorem updatePackageJson_array_bugs_get_no_url (P : platform) (w : world)
    (repoFolder repoName text : string) (fields : list (string * json))
    (items : list json) :
  let pkg := join repoFolder "package.json" in
  disk w !! pkg = Some (File text) ->
  JSON_parse P text = Some (JObj fields) ->
  obj_get "bugs" fields = Some (JArr items) ->
  exists out,
    invoke P (updatePackageJson repoFolder repoName) w
    = (Ok tt,
       {| disk := <[pkg := File (JSON_stringify P (JObj out))]> (disk w);
          pending := pending w;
          trace := trace w ++ [Done (fse_pathExists pkg) (Ok true);
                               Done (fse_readJson pkg) (Ok (JObj fields));
                               Done (fse_writeJson pkg (JObj out)) (Ok tt)] |})
    /\ obj_get "bugs" out = Some (JArr items).
Proof.
  intros pkg Hfile Hdoc Hbugs.
  rewrite (invoke_updatePackageJson P _ _ _ _ _ Hfile Hdoc).
  unfold rewriteManifest. rewrite Hbugs. cbn [truthy].
  eexists. split; [reflexivity|].
  rewrite obj_get_purged, !obj_get_set. reflexivity.
Qed.

Lemma updatePackageJson_array_bugs_get_no_url_witness :
  exists out,
    disk (invoke odd_bugs (updatePackageJson "/work/foo" "org/bar")
            (on_disk array_bugs_disk)).2
      !! "/work/foo/package.json"
    = Some (File (stringify (JObj out)))
    /\ obj_get "bugs" out = Some (JArr [JStr "https://example.com/issues"]).
Proof.
  destruct (updatePackageJson_array_bugs_get_no_url odd_bugs
              (on_disk array_bugs_disk) "/work/foo" "org/bar"
              (stringify array_bugs_manifest)
              [("name", JStr "lib");
               ("bugs", JArr [JStr "https://example.com/issues"])]
              [JStr "https://example.com/issues"])
    as (out & Hrun & Hbugs).
  - vm_compute. reflexivity.
  - vm_compute. reflexivity.
  - reflexivity.
  - exists out. split; [|exact Hbugs].
    rewrite Hrun. apply lookup_insert_eq.
Defined.

(** X5: whenever [updatePackageJson] is rejected - no manifest, a manifest
    that does not parse, a document it cannot rewrite - the disk is as it
    was and no operation is under way: the write comes last, and nothing
    is written before the new document is complete. *)
Theorem updatePackageJson_failure_writes_nothing (P : platform) (w w' : world)
    (repoFolder repoName e : string) :
  invoke P (updatePackageJson repoFolder repoName) w = (Fail e, w') ->
  disk w' = disk w /\ pending w' = pending w.
Proof.
  unfold updatePackageJson.
  set (pkg := join repoFolder "package.json").
  rewrite invoke_bind, invoke_await. unfold perform. cbn [exec fst snd].
  destruct (exists_at (disk w) pkg); cbn;
    [|intros [= _ <-]; split; reflexivity].
  unfold read_text.
  destruct (disk w !! pkg) as [[text|]|] eqn:Hfile; cbn;
    try (intros [= _ <-]; split; reflexivity).
  destruct (JSON_parse P text) as [doc|]; cbn;
    [|intros [= _ <-]; split; reflexivity].
  destruct (rewriteManifest repoName doc) as [out|e']; cbn;
    [|intros [= _ <-]; split; reflexivity].
  unfold write_text. rewrite Hfile. cbn. discriminate.
Qed.

Lemma updatePackageJson_failure_writes_nothing_witness :
  disk (invoke bundled (updatePackageJson "/work/foo" "org/bar")
          (on_disk malformed_disk)).2
  = malformed_disk.
Proof.
  destruct (updatePackageJson_failure_writes_nothing bundled
              (on_disk malformed_disk)
              (invoke bundled (updatePackageJson "/work/foo" "org/bar")
                 (on_disk malformed_disk)).2
              "/work/foo" "org/bar"
              "/work/foo/package.json does not exist in /work/foo")
    as [Hdisk _].
  - vm_compute. reflexivity.
  - exact Hdisk.
Defined.

(** *** Rewriting twice *)

Section MoreObjects.
Context {V : Type}.
Implicit Types (o : list (string * V)) (k : string).

Lemma obj_set_same k (v : V) o : obj_get k o = Some v -> obj_set k v o = o.
Proof.
  induction o as [|[k0 v0] o IH]; simpl; [discriminate|].
  destruct (k =? k0) eqn:E.
  - intros [= ->]. apply String.eqb_eq in E as ->. reflexivity.
  - intros H. rewrite IH by exact H. reflexivity.
Qed.

Lemma keys_obj_delete k o :
  Object_keys (obj_delete k o)
  = List.filter (fun x => negb (k =? x)) (Object_keys o).
Proof.
  unfold obj_delete, Object_keys.
  induction o as [|[k0 v0] o IH]; simpl; [reflexivity|].
  destruct (k =? k0); simpl; rewrite IH; reflexivity.
Qed.

Lemma keys_delete_all keys o :
  Object_keys (fold_left (fun o key => obj_delete key o) keys o)
  = List.filter (fun x => negb (existsb (String.eqb x) keys)) (Object_keys o).
Proof.
  revert o. induction keys as [|key keys IH]; intros o; simpl.
  - induction (Object_keys o) as [|x l IHl]; simpl; [|rewrite <- IHl];
      reflexivity.
  - rewrite IH, keys_obj_delete.
    induction (Object_keys o) as [|x l IHl]; simpl; [reflexivity|].
    rewrite (String.eqb_sym x key).
    destruct (key =? x); simpl; [exact IHl|].
    destruct (existsb (String.eqb x) keys); simpl; rewrite IHl; reflexivity.
Qed.

End MoreObjects.

Lemma filter_filter_neg (f : string -> bool) (l : list string) :
  List.filter f
    (List.filter (fun x => negb (existsb (String.eqb x) (List.filter f l))) l)
  = [].
Proof.
  assert (H : forall l', (forall x, In x l' -> In x l) ->
            List.filter f
              (List.filter
                 (fun x => negb (existsb (String.eqb x) (List.filter f l))) l')
            = []).
  { induction l' as [|x l' IH]; intros Hsub; simpl; [reflexivity|].
    rewrite existsb_eqb_filter.
    destruct (f x) eqn:Hx; simpl.
    - assert (Hin : existsb (String.eqb x) l = true).
      { apply existsb_exists. exists x. split; [apply Hsub; left; reflexivity|].
        apply String.eqb_refl. }
      rewrite Hin. simpl. apply IH. intros y Hy. apply Hsub. right. exact Hy.
    - rewrite Hx. apply IH. intros y Hy. apply Hsub. right. exact Hy. }
  apply H. auto.
Qed.

(** After the purge no key starts with an underscore. *)
Lemma purged_keys (o : list (string * json)) :
  List.filter (fun key => startsWith key "_")
    (Object_keys
       (fold_left (fun json key => obj_delete key json)
          (List.filter (fun key => startsWith key "_") (Object_keys o)) o))
  = [].
Proof. rewrite keys_delete_all. apply filter_filter_neg. Qed.

(** The [bugs] field that [rewriteManifest] leaves. *)
Lemma rewriteManifest_bugs repoName fields out :
  rewriteManifest repoName (JObj fields) = Ok (JObj out) ->
  (exists b, obj_get "bugs" out = Some (JObj b)
             /\ obj_get "url" b
                = Some (JStr ("https://github.com/@" +:+ repoName
                              +:+ "/issues")))
  \/ (exists items, obj_get "bugs" out = Some (JArr items)).
Proof.
  unfold rewriteManifest.
  destruct (match obj_get "bugs" fields with
            | Some b => if truthy b then b else JObj []
            | None => JObj []
            end) as [| | | |items|b]; try discriminate; intros [= <-].
  - right. exists items. rewrite obj_get_purged, !obj_get_set. reflexivity.
  - left. eexists. split.
    + rewrite obj_get_purged, !obj_get_set. reflexivity.
    + rewrite obj_get_set. reflexivity.
Qed.

(** X6: the rewriting of the manifest is idempotent. A document that
    [updatePackageJson] has produced is left exactly as it is - the same
    fields with the same values in the same order - when it is rewritten
    again for the same repo name. *)
Theorem rewriteManifest_idempotent (repoName : string) (doc out : json) :
  rewriteManifest repoName doc = Ok out ->
  rewriteManifest repoName out = Ok out.
Proof.
  intros H.
  destruct doc as [| | | |items|fields]; try discriminate H.
  { injection H as <-. reflexivity. }
  destruct (rewriteManifest_object _ _ _ H)
    as (out' & -> & Hname & Hrepo & Hhome & Hversion & _ & _ & _).
  assert (Hpurged : List.filter (fun key => startsWith key "_")
                      (Object_keys out') = []).
  { revert H. unfold rewriteManifest.
    destruct (match obj_get "bugs" fields with
              | Some b => if truthy b then b else JObj []
              | None => JObj []
              end) as [| | | |items|b]; try discriminate;
      intros [= <-]; apply purged_keys. }
  destruct (rewriteManifest_bugs _ _ _ H)
    as [(b & Hbugs & Hurl)|(items & Hbugs)];
    unfold rewriteManifest; rewrite Hbugs; cbn [truthy].
  - rewrite (obj_set_same "bugs" _ _ Hbugs).
    rewrite (obj_set_same "name" _ _ Hname).
    rewrite (obj_set_same "repository" _ _ Hrepo).
    rewrite (obj_set_same "homepage" _ _ Hhome).
    rewrite (obj_set_same "url" _ _ Hurl).
    rewrite (obj_set_same "bugs" _ _ Hbugs).
    rewrite (obj_set_same "version" _ _ Hversion).
    rewrite Hpurged. reflexivity.
  - rewrite (obj_set_same "bugs" _ _ Hbugs).
    rewrite (obj_set_same "name" _ _ Hname).
    rewrite (obj_set_same "repository" _ _ Hrepo).
    rewrite (obj_set_same "homepage" _ _ Hhome).
    rewrite (obj_set_same "version" _ _ Hversion).
    rewrite Hpurged. reflexivity.
Qed.

Lemma rewriteManifest_idempotent_witness :
  rewriteManifest "org/bar"
    (JObj [("name", JStr "@org/bar");
           ("version", JStr "0.0.1");
           ("license", JStr "Apache-2.0");
           ("bugs", JObj [("url", JStr "https://github.com/@org/bar/issues")]);
           ("repository", JStr "https://github.com/@org/bar");
           ("homepage", JStr "https://github.com/@org/bar")])
  = Ok (JObj [("name", JStr "@org/bar");
              ("version", JStr "0.0.1");
              ("license", JStr "Apache-2.0");
              ("bugs", JObj [("url", JStr "https://github.com/@org/bar/issues")]);
              ("repository", JStr "https://github.com/@org/bar");
              ("homepage", JStr "https://github.com/@org/bar")]).
Proof.
  apply (rewriteManifest_idempotent "org/bar" template_manifest).
  reflexivity.
Defined.

(** ** One token, one file *)

Lemma replace_scan_absent text replacer :
  text <> "" ->
  forall s before,
    occurs text s = false -> replace_scan text replacer 0 before s = Ok s.
Proof.
  intros Htext. apply String.eqb_neq in Htext.
  induction s as [|c rest IH]; intros before Hocc.
  - cbn. rewrite Htext. reflexivity.
  - cbn [occurs] in Hocc. apply orb_false_iff in Hocc as [Hpre Hrest].
    cbn [replace_scan]. rewrite Hpre, IH by exact Hrest. reflexivity.
Qed.

Lemma resolved_token_nonempty libName repoName from :
  defined (prop (toFrom libName repoName) from) = true -> from <> "".
Proof. intros H ->. discriminate H. Qed.

(** X7: a token the lookup resolves and the text does not hold leaves the
    text as it is, whatever it resolves to: the replacement is never
    consulted, be it a value with [$] patterns or an inherited member that
    would throw on a match. *)
Theorem replaceToken_absent_token
    (libName repoName from fileContents : string) :
  defined (prop (toFrom libName repoName) from) = true ->
  occurs from fileContents = false ->
  replaceToken (toFrom libName repoName) fileContents from
  = Return fileContents.
Proof.
  intros Hdef Hocc. unfold replaceToken. rewrite Hdef. cbn [negb].
  destruct (prop (toFrom libName repoName) from) as [to|] eqn:Hto;
    [|reflexivity].
  unfold String_replace.
  rewrite (resolved_pattern_is_text libName repoName from)
    by (rewrite Hto; exact Hdef).
  rewrite replace_scan_absent; [reflexivity| |exact Hocc].
  apply (resolved_token_nonempty libName repoName). rewrite Hto. exact Hdef.
Qed.

Lemma replaceToken_absent_token_witness :
  replaceToken (toFrom "Foo" "a$&b") "nothing to do here" "{{REPO}}"
  = Return "nothing to do here"
  /\ replaceToken (toFrom "Foo" "org/bar") "nothing to do here" "valueOf"
     = Return "nothing to do here".
Proof.
  split.
  - apply (replaceToken_absent_token "Foo" "a$&b" "{{REPO}}"); reflexivity.
  - apply (replaceToken_absent_token "Foo" "org/bar" "valueOf"); reflexivity.
Defined.

(** X8: the substitution step answers a token with the diagnostic "No
    mapping found, skipping replace of <token>", leaving the text as it
    is, exactly when the token is [{{REPO}}] and the repo name is empty, or
    the token is neither a key of the table nor the name of a member every
    object inherits. *)
Theorem replaceToken_diagnostic_iff
    (libName repoName from fileContents : string) :
  libName <> "" ->
  replaceToken (toFrom libName repoName) fileContents from
  = Emit (no_mapping from) (Return fileContents)
  <-> (from = "{{REPO}}" /\ repoName = "")
      \/ from ∉ "{{REPO}}" :: "{{LIB_NAME}}" :: "LibNameCoreAPI"
                :: Object_prototype.
Proof.
  intros Hlib.
  assert (Hdef : defined (prop (toFrom libName repoName) from) = false
                 <-> (from = "{{REPO}}" /\ repoName = "")
                     \/ from ∉ "{{REPO}}" :: "{{LIB_NAME}}"
                               :: "LibNameCoreAPI" :: Object_prototype).
  { rewrite (defined_toFrom _ _ _ Hlib).
    destruct (String.eqb_spec from "{{REPO}}") as [->|Hrepo].
    { rewrite negb_false_iff, String.eqb_eq. split; [auto|].
      intros [[_ H]|H]; [exact H|]. exfalso. apply H. left. }
    destruct (String.eqb_spec from "{{LIB_NAME}}") as [->|Hlibname].
    { split; [discriminate|]. intros [[H _]|H]; [discriminate H|].
      exfalso. apply H. right. left. }
    destruct (String.eqb_spec from "LibNameCoreAPI") as [->|Hcore].
    { split; [discriminate|]. intros [[H _]|H]; [discriminate H|].
      exfalso. apply H. right. right. left. }
    split.
    - intros Hnot. right. intros Hin.
      repeat (apply elem_of_cons in Hin as [->|Hin]; [contradiction|]).
      assert (Hex : existsb (String.eqb from) Object_prototype = true).
      { apply existsb_exists. exists from. split; [|apply String.eqb_refl].
        apply list_elem_of_In. exact Hin. }
      congruence.
    - intros [[H _]|H]; [contradiction|].
      destruct (existsb (String.eqb from) Object_prototype) eqn:Hex;
        [|reflexivity].
      exfalso. apply H. do 3 right.
      apply existsb_exists in Hex as (name & Hname & ->%String.eqb_eq).
      apply list_elem_of_In. exact Hname. }
  rewrite <- Hdef. split.
  - intros Hrun. unfold replaceToken in Hrun.
    destruct (defined (prop (toFrom libName repoName) from)); [|reflexivity].
    cbn [negb] in Hrun.
    destruct (prop (toFrom libName repoName) from) as [to|];
      [|discriminate Hrun].
    destruct (String_replace fileContents (escapeCurly from) to);
      discriminate Hrun.
  - apply replaceToken_unmapped.
Qed.

Lemma replaceToken_diagnostic_iff_witness :
  replaceToken (toFrom "Foo" "") "see {{REPO}}" "{{REPO}}"
  = Emit (no_mapping "{{REPO}}") (Return "see {{REPO}}").
Proof.
  apply (replaceToken_diagnostic_iff "Foo" "" "{{REPO}}" "see {{REPO}}").
  - discriminate.
  - left. split; reflexivity.
Defined.

(** A pattern that is a text, and a value without [$]. *)
Lemma String_replace_literal fileContents from to :
  brace_text from = true -> from <> "" -> no_dollar to = true ->
  String_replace fileContents (escapeCurly from) (Str to)
  = Ok (replace_all from to fileContents).
Proof.
  intros Htext Hne Hdollar. unfold String_replace.
  rewrite (RegExp_escapeCurly _ Htext).
  rewrite (replace_scan_literal from (replacer (Str to)) to Hne).
  - unfold replace_all. apply String.eqb_neq in Hne. rewrite Hne. reflexivity.
  - intros. simpl. rewrite GetSubstitution_literal by assumption. reflexivity.
Qed.

Lemma table_token_plain libName repoName from :
  libName <> "" -> repoName <> "" ->
  no_dollar libName = true -> no_dollar repoName = true ->
  from ∈ ["{{REPO}}"; "{{LIB_NAME}}"; "LibNameCoreAPI"] ->
  exists to,
    obj_get from (toFrom libName repoName) = Some to
    /\ to <> "" /\ no_dollar to = true
    /\ brace_text from = true /\ from <> "".
Proof.
  intros Hl Hr Hdl Hdr Hin.
  repeat (apply elem_of_cons in Hin as [->|Hin];
          [eexists; split; [reflexivity|];
           repeat split; try assumption; discriminate|]).
  inversion Hin.
Qed.

(** With plain values for its tokens, the loop over the tokens is the
    substitution of each in turn. *)
Lemma forEach_token_plain libName repoName tokens : forall fileContents,
  libName <> "" -> repoName <> "" ->
  no_dollar libName = true -> no_dollar repoName = true ->
  Forall (fun from => from ∈ ["{{REPO}}"; "{{LIB_NAME}}"; "LibNameCoreAPI"])
    tokens ->
  forEach_token (toFrom libName repoName) tokens fileContents
  = Return (substituted libName repoName tokens fileContents).
Proof.
  intros fileContents Hl Hr Hdl Hdr Hall. revert fileContents.
  induction Hall as [|from rest Hfrom _ IH]; intros fileContents;
    [reflexivity|].
  destruct (table_token_plain libName repoName from Hl Hr Hdl Hdr Hfrom)
    as (to & Hown & Hto & Hdollar & Htext & Hne).
  cbn [forEach_token]. unfold replaceToken, prop. rewrite Hown.
  apply String.eqb_neq in Hto. cbn [defined]. rewrite Hto. cbn [negb].
  rewrite (String_replace_literal _ _ _ Htext Hne Hdollar).
  cbn [of_result settle]. rewrite IH.
  unfold substituted. cbn [fold_left]. rewrite Hown. reflexivity.
Qed.

(** X9: a file that the manifest lists under tokens of the table only,
    with a library and a repo name that are not empty and hold no [$], is
    read once and written once, with no diagnostic in between, and the
    text written is the text read with the tokens replaced one after the
    other in the order of the keys of the manifest, each occurrence of a
    token by the value the table has for it. *)
Theorem replaceFile_substitutes_in_manifest_order (P : platform) (w : world)
    (repoFolder libName repoName pathItem text : string) (paramsJson : params) :
  let filePath := join repoFolder pathItem in
  let written :=
    substituted libName repoName (tokens paramsJson pathItem) text in
  libName <> "" -> repoName <> "" ->
  no_dollar libName = true -> no_dollar repoName = true ->
  In pathItem (pathItemSet paramsJson) ->
  Forall (fun from => from ∈ ["{{REPO}}"; "{{LIB_NAME}}"; "LibNameCoreAPI"])
    (tokens paramsJson pathItem) ->
  disk w !! filePath = Some (File text) ->
  invoke P (replaceFile repoFolder paramsJson (toFrom libName repoName) pathItem)
    w
  = (Ok tt,
     {| disk := <[filePath := File written]> (disk w);
        pending := pending w;
        trace := trace w ++ [Done (fse_readFile filePath) (Ok text);
                             Done (fse_writeFile filePath written) (Ok tt)] |}).
Proof.
  intros filePath written Hl Hr Hdl Hdr Hlisted Hall Hfile.
  assert (Hguard : (0 <? length (tokens paramsJson pathItem))%nat = true).
  { apply tokens_nonempty in Hlisted.
    destruct (tokens paramsJson pathItem); [contradiction|reflexivity]. }
  unfold replaceFile. fold filePath.
  rewrite invoke_bind, invoke_await. unfold perform at 1 2.
  cbn [exec fst snd]. unfold read_text. rewrite Hfile.
  rewrite invoke_bind.
  rewrite (forEach_token_plain _ _ _ _ Hl Hr Hdl Hdr Hall).
  cbn [invoke fst snd]. rewrite Hguard, invoke_await.
  unfold perform. cbn [exec fst snd disk pending trace].
  unfold write_text. rewrite Hfile. cbn [fst snd].
  rewrite <- !app_assoc. reflexivity.
Qed.

Lemma replaceFile_substitutes_in_manifest_order_witness :
  invoke (stub [] [])
    (replaceFile "/work/Foo" example_params (toFrom "Foo" "org/bar") "a.txt")
    (on_disk example_disk)
  = (Ok tt,
     {| disk := <["/work/Foo/a.txt" := File "Foo lives at org/bar"]>
                  example_disk;
        pending := [];
        trace := [Done (fse_readFile "/work/Foo/a.txt")
                    (Ok "{{LIB_NAME}} lives at {{REPO}}");
                  Done (fse_writeFile "/work/Foo/a.txt" "Foo lives at org/bar")
                    (Ok tt)] |}).
Proof.
  apply (replaceFile_substitutes_in_manifest_order (stub [] [])
           (on_disk example_disk) "/work/Foo" "Foo" "org/bar" "a.txt"
           "{{LIB_NAME}} lives at {{REPO}}" example_params).
  - discriminate.
  - discriminate.
  - reflexivity.
  - reflexivity.
  - vm_compute. auto.
  - repeat constructor.
  - vm_compute. reflexivity.
Defined.

(** X10: for a listed path that joins with the folder to an absolute path
    in normal form with no entry on the disk, the call for the file is
    rejected at its read with the error of the file system; no token is
    looked up, no diagnostic is emitted and nothing is written. *)
Theorem replaceFile_missing_file (P : platform) (w : world)
    (repoFolder pathItem : string) (paramsJson : params)
    (toFrom : list (string * string)) :
  let filePath := join repoFolder pathItem in
  let e := "ENOENT: no such file or directory, open '" +:+ filePath +:+ "'" in
  resolved filePath = true ->
  disk w !! filePath = None ->
  invoke P (replaceFile repoFolder paramsJson toFrom pathItem) w
  = (Fail e, extend w [Done (fse_readFile filePath) (Fail e)]).
Proof.
  intros filePath e _ Hmissing. unfold replaceFile. fold filePath.
  rewrite invoke_bind, invoke_await. unfold perform.
  cbn [exec fst snd]. unfold read_text. rewrite Hmissing. reflexivity.
Qed.

Lemma replaceFile_missing_file_witness :
  invoke bundled
    (replaceFile "/work/foo" template_params (toFrom "Foo" "org/bar")
       "./docs/api.md")
    (on_disk template_disk)
  = (Fail "ENOENT: no such file or directory, open '/work/foo/docs/api.md'",
     extend (on_disk template_disk)
       [Done (fse_readFile "/work/foo/docs/api.md")
          (Fail "ENOENT: no such file or directory, open '/work/foo/docs/api.md'")]).
Proof.
  apply (replaceFile_missing_file bundled (on_disk template_disk) "/work/foo"
           "./docs/api.md" template_params (toFrom "Foo" "org/bar")).
  - vm_compute. reflexivity.
  - vm_compute. reflexivity.
Defined.

(** ** The set of paths *)

Lemma includes_false l x : includes l x = false -> ~ In x l.
Proof.
  intros H Hin. apply includes_In in Hin. congruence.
Qed.

Lemma new_Set_fold_NoDup l : forall acc,
  NoDup acc ->
  NoDup (fold_left (fun set y => if includes set y then set else set ++ [y])
           l acc).
Proof.
  induction l as [|y l IH]; intros acc Hacc; simpl; [exact Hacc|].
  apply IH. destruct (includes acc y) eqn:Hy; [exact Hacc|].
  apply NoDup_app. split; [exact Hacc|]. split.
  - intros x Hx ->%list_elem_of_singleton.
    apply (includes_false _ _ Hy). apply list_elem_of_In. exact Hx.
  - apply NoDup_singleton.
Qed.

Lemma new_Set_NoDup l : NoDup (new_Set l).
Proof. apply new_Set_fold_NoDup. constructor. Qed.

Lemma In_new_Set l x : In x l -> In x (new_Set l).
Proof.
  unfold new_Set.
  assert (H : forall acc, In x acc \/ In x l ->
            In x (fold_left
                    (fun set y => if includes set y then set else set ++ [y])
                    l acc)).
  { induction l as [|y l IH]; intros acc [Hx|Hx]; simpl in *;
      try assumption; try contradiction.
    - apply IH. left. destruct (includes acc y); [exact Hx|].
      apply in_or_app. left. exact Hx.
    - apply IH. destruct Hx as [->|Hx]; [|right; exact Hx]. left.
      destruct (includes acc x) eqn:Hin.
      + apply includes_In. exact Hin.
      + apply in_or_app. right. left. reflexivity. }
  intros Hx. apply H. right. exact Hx.
Qed.

Lemma pathItemSet_NoDup paramsJson : NoDup (pathItemSet paramsJson).
Proof.
  unfold pathItemSet.
  assert (H : forall keys acc, NoDup acc ->
            NoDup (fold_left
                     (fun set key => new_Set (set ++ paths_of paramsJson key))
                     keys acc)).
  { induction keys as [|key keys IH]; intros acc Hacc; simpl; [exact Hacc|].
    apply IH. apply new_Set_NoDup. }
  apply H. constructor.
Qed.

(** Every path listed under a token of the manifest is in the set. *)
Lemma pathItemSet_complete paramsJson token pathItem :
  In token (Object_keys paramsJson) ->
  In pathItem (paths_of paramsJson token) ->
  In pathItem (pathItemSet paramsJson).
Proof.
  intros Hkey Hpath. unfold pathItemSet.
  assert (H : forall keys acc,
            In pathItem acc \/ In token keys ->
            In pathItem
              (fold_left
                 (fun set key => new_Set (set ++ paths_of paramsJson key))
                 keys acc)).
  { induction keys as [|key keys IH]; intros acc [Hx|Hx]; simpl in *;
      try assumption; try contradiction.
    - apply IH. left. apply In_new_Set, in_or_app. left. exact Hx.
    - apply IH. destruct Hx as [->|Hx]; [|right; exact Hx].
      left. apply In_new_Set, in_or_app. right. exact Hpath. }
  apply H. right. exact Hkey.
Qed.

(** X11: the set of paths that [replaceText] builds holds every path that
    the manifest lists under some token, holds nothing else, and holds
    each path once, however many tokens list it: each file is read once. *)
Theorem pathItemSet_exact (paramsJson : params) :
  NoDup (pathItemSet paramsJson)
  /\ forall pathItem,
       In pathItem (pathItemSet paramsJson)
       <-> exists token, In token (Object_keys paramsJson)
                         /\ In pathItem (paths_of paramsJson token).
Proof.
  split; [apply pathItemSet_NoDup|].
  intros pathItem. split; [apply pathItemSet_listed|].
  intros (token & Hkey & Hpath).
  apply (pathItemSet_complete _ token); assumption.
Qed.

(** ** What an operation leaves alone *)

Lemma string_drop_app a x : string_drop (String.length a) (a +:+ x) = x.
Proof. induction a as [|c a IH]; [destruct x; reflexivity|exact IH]. Qed.

Lemma under_self p : under p p = Some "".
Proof. unfold under. rewrite String.eqb_refl. reflexivity. Qed.

(** An entry moved from below [src] lands at or below [dest]. *)
Lemma under_relocated src dest p rest :
  under src p = Some rest -> is_Some (under dest (dest +:+ rest)).
Proof.
  unfold under at 1. destruct (p =? src).
  - intros [= <-]. rewrite append_empty_r. unfold under.
    rewrite String.eqb_refl. eauto.
  - destruct (String.prefix (src +:+ "/") p) eqn:Hpre; [|discriminate].
    intros [= <-]. apply prefix_drop in Hpre. rewrite append_assoc in Hpre.
    rewrite Hpre at 1. rewrite string_drop_app.
    unfold under. destruct (_ =? dest); [eauto|].
    rewrite <- append_assoc, prefix_append. eauto.
Qed.

Lemma relocate_outside src dest entries q :
  under dest q = None ->
  (list_to_map (relocate src dest entries) : gmap string node) !! q = None.
Proof.
  intros Hq. apply not_elem_of_list_to_map_1.
  intros (p & rest & _ & Hrest & ->)%relocate_keys.
  apply (under_relocated _ dest) in Hrest as [x Hx]. congruence.
Qed.

Lemma relocate_None src dest entries q :
  (forall rest, q <> dest +:+ rest) ->
  (list_to_map (relocate src dest entries) : gmap string node) !! q = None.
Proof.
  intros Hq. apply not_elem_of_list_to_map_1.
  intros (p & rest & _ & _ & ->)%relocate_keys. exact (Hq rest eq_refl).
Qed.

Lemma remove_tree_outside (d : gmap string node) p q :
  under p q = None -> remove_tree d p !! q = d !! q.
Proof.
  intros Hq. unfold remove_tree. destruct (d !! q) as [n|] eqn:Hd.
  - apply map_lookup_filter_Some_2; [exact Hd | exact Hq].
  - apply map_lookup_filter_None_2. left. exact Hd.
Qed.

Lemma remove_tree_self (d : gmap string node) p : remove_tree d p !! p = None.
Proof.
  apply map_lookup_filter_None_2. right. intros n _. cbn.
  rewrite under_self. discriminate.
Qed.

Lemma remove_tree_None (d : gmap string node) p q :
  d !! q = None -> remove_tree d p !! q = None.
Proof. intros H. apply map_lookup_filter_None_2. left. exact H. Qed.

Lemma existsb_delete {X : Type} (f : X -> bool) (l : list X) : forall i x,
  l !! i = Some x -> f x = false -> existsb f (delete i l) = existsb f l.
Proof.
  induction l as [|y l IH]; intros [|i] x Hx Hf; try discriminate Hx.
  - injection Hx as ->. cbn. rewrite Hf. reflexivity.
  - change (delete (S i) (y :: l)) with (y :: delete i l).
    cbn [existsb]. rewrite (IH i x Hx Hf). reflexivity.
Qed.

Lemma delete_across {X : Type} (l1 l2 : list X) i :
  delete i (l1 ++ l2)
  = if decide (i < length l1)%nat then delete i l1 ++ l2
    else l1 ++ delete (i - length l1) l2.
Proof.
  revert i. induction l1 as [|x l1 IH]; intros i.
  - cbn. rewrite Nat.sub_0_r. reflexivity.
  - destruct i as [|i]; [reflexivity|].
    change (delete (S i) ((x :: l1) ++ l2)) with (x :: delete i (l1 ++ l2)).
    rewrite IH. cbn [length].
    destruct (decide (i < length l1)%nat), (decide (S i < S (length l1))%nat);
      try lia; reflexivity.
Qed.

Section Footprint.
Context (P : platform).

(** An operation changes nothing outside its footprint. *)
Lemma exec_outside {B : Type} (o : op B) (d : gmap string node) q :
  outside q o = true -> (exec P o d).2 !! q = d !! q.
Proof.
  destruct o; cbn [outside exec]; intros Hout; try reflexivity.
  - apply negb_true_iff, String.eqb_neq in Hout.
    unfold write_text. destruct (d !! p) as [[|]|]; cbn; try reflexivity;
      apply lookup_insert_ne; congruence.
  - destruct (read_text d p); [destruct (JSON_parse P _)|]; reflexivity.
  - apply negb_true_iff, String.eqb_neq in Hout.
    unfold write_text. destruct (d !! p) as [[|]|]; cbn; try reflexivity;
      apply lookup_insert_ne; congruence.
  - apply bool_decide_eq_true in Hout. cbn. apply remove_tree_outside, Hout.
  - apply andb_prop in Hout as [Hsrc%bool_decide_eq_true
                                 Hdest%bool_decide_eq_true].
    destruct (negb (exists_at d src)); [reflexivity|].
    destruct (exists_at d dest); [reflexivity|]. cbn.
    rewrite lookup_union_r by (apply relocate_outside; exact Hdest).
    apply remove_tree_outside, Hsrc.
  - discriminate Hout.
  - discriminate Hout.
  - destruct (negb (String.prefix "/" p)); [reflexivity|].
    destruct (read_text d p); [destruct (JSON_parse_params P _)|]; reflexivity.
Qed.

Lemma confined_settle q {A B : Type} (p : prog A) (f : result A -> prog B) :
  confined q p -> (forall r, confined q (f r)) -> confined q (settle p f).
Proof.
  revert B f. induction p; intros B' f Hp Hf; cbn in *; auto.
  - destruct Hp as [Ho Hk]. split; [exact Ho|]. intros r. auto.
  - destruct Hp as [Ho Hk]. split; [exact Ho|]. intros r. auto.
  - destruct Hp as [Ho Hk]. split; [exact Ho|]. auto.
  - destruct Hp as [Hc Hk]. split; [exact Hc|]. auto.
Qed.

Lemma confined_bind q {A B : Type} (p : prog A) (f : A -> prog B) :
  confined q p -> (forall a, confined q (f a)) -> confined q (p ≫= f).
Proof.
  intros Hp Hf. apply confined_settle; [exact Hp|].
  intros [a|e]; [apply Hf | exact I].
Qed.

Lemma confined_of_result q {A : Type} (r : result A) : confined q (of_result r).
Proof. destruct r; exact I. Qed.

Lemma confined_await q {B : Type} (o : op B) :
  outside q o = true -> confined q (await o).
Proof. intros Ho. split; [exact Ho|]. apply confined_of_result. Qed.

(** What a confined call adds to the jobs under way. *)
Lemma start_confined_app q : forall (p : prog unit) w,
  confined q p ->
  exists new,
    pending (start P p w) = pending w ++ new
    /\ Forall (job_confined q) new
    /\ disk (start P p w) !! q = disk w !! q.
Proof.
  fix IH 1.
  intros [a|e|C o k|C o k|C o k|child k|e k] w Hp;
    cbn [start confined] in *.
  - exists []. rewrite app_nil_r. auto.
  - exists []. rewrite app_nil_r. auto.
  - exists [Job o k]. repeat split. repeat constructor; apply Hp.
  - destruct Hp as [Ho Hk].
    destruct (IH (k (perform P o w).1) (perform P o w).2 (Hk _))
      as (new & Hp & Hnew & Hd).
    exists new. split; [exact Hp|]. split; [exact Hnew|].
    rewrite Hd. apply exec_outside, Ho.
  - destruct Hp as [Ho Hk].
    destruct (IH k (enqueue (Job o unobserved) w) Hk) as (new & Hp & Hnew & Hd).
    exists (Job o unobserved :: new). split; [|split].
    + rewrite Hp. cbn. rewrite <- app_assoc. reflexivity.
    + constructor; [|exact Hnew]. split; [exact Ho|]. intros [b|e]; exact I.
    + exact Hd.
  - destruct Hp as [Hc Hk].
    destruct (IH child w Hc) as (new1 & Hp1 & Hnew1 & Hd1).
    destruct (IH k (start P child w) Hk) as (new2 & Hp2 & Hnew2 & Hd2).
    exists (new1 ++ new2). split; [|split].
    + rewrite Hp2, Hp1, app_assoc. reflexivity.
    + apply Forall_app. auto.
    + congruence.
  - destruct (IH k (record e w) Hp) as (new & Hp' & Hnew & Hd).
    exists new. auto.
Qed.

(** A call that is confined leaves [q] as it is, and the jobs it leaves
    are confined. *)
Lemma start_confined q (p : prog unit) w :
  confined q p -> Forall (job_confined q) (pending w) ->
  disk (start P p w) !! q = disk w !! q
  /\ Forall (job_confined q) (pending (start P p w)).
Proof.
  intros Hp Hw.
  destruct (start_confined_app q p w Hp) as (new & -> & Hnew & Hd).
  split; [exact Hd|]. apply Forall_app. auto.
Qed.

Lemma complete_eq {B : Type} (o : op B) k i w :
  pending w !! i = Some (Job o k) ->
  complete P i w
  = start P (k (exec P o (disk w)).1)
      {| disk := (exec P o (disk w)).2;
         pending := delete i (pending w);
         trace := trace w ++ [Done o (exec P o (disk w)).1] |}.
Proof. intros Hj. unfold complete. rewrite Hj. reflexivity. Qed.

(** The completion of a job that leaves [q] alone. *)
Lemma complete_confined_app q i w j :
  pending w !! i = Some j -> job_confined q j ->
  exists new,
    pending (complete P i w) = delete i (pending w) ++ new
    /\ Forall (job_confined q) new
    /\ disk (complete P i w) !! q = disk w !! q.
Proof.
  intros Hj Hconf. destruct j as [B o k]. destruct Hconf as [Ho Hk].
  rewrite (complete_eq _ _ _ _ Hj).
  destruct (start_confined_app q (k (exec P o (disk w)).1)
              {| disk := (exec P o (disk w)).2;
                 pending := delete i (pending w);
                 trace := trace w ++ [Done o (exec P o (disk w)).1] |} (Hk _))
    as (new & Hp & Hnew & Hd).
  exists new. split; [exact Hp|]. split; [exact Hnew|].
  rewrite Hd. cbn. apply exec_outside, Ho.
Qed.

Lemma complete_confined q i w :
  Forall (job_confined q) (pending w) ->
  disk (complete P i w) !! q = disk w !! q
  /\ Forall (job_confined q) (pending (complete P i w)).
Proof.
  intros Hw. destruct (pending w !! i) as [j|] eqn:Hj.
  - destruct (complete_confined_app q i w j Hj
                (Forall_lookup_1 _ _ _ _ Hw Hj)) as (new & -> & Hnew & Hd).
    split; [exact Hd|].
    apply Forall_app. split; [apply Forall_delete, Hw | exact Hnew].
  - unfold complete. rewrite Hj. auto.
Qed.

Lemma run_schedule_confined q s : forall w,
  Forall (job_confined q) (pending w) ->
  disk (run_schedule P s w) !! q = disk w !! q.
Proof.
  induction s as [|i s IH]; intros w Hw; [reflexivity|]. cbn.
  destruct (complete_confined q i w Hw) as [Hd Hp].
  rewrite IH by exact Hp. exact Hd.
Qed.

Lemma confined_forEach_token q toFrom tokens : forall fileContents,
  confined q (forEach_token toFrom tokens fileContents).
Proof.
  induction tokens as [|from rest IH]; intros fileContents; [exact I|].
  cbn [forEach_token]. apply confined_settle.
  - unfold replaceToken. destruct (negb _); [exact I|].
    destruct (prop toFrom from); [apply confined_of_result | exact I].
  - intros [out|e]; cbn; apply IH.
Qed.

Lemma confined_replaceFile q repoFolder paramsJson toFrom pathItem :
  q <> join repoFolder pathItem ->
  confined q (replaceFile repoFolder paramsJson toFrom pathItem).
Proof.
  intros Hq. unfold replaceFile.
  apply confined_bind; [apply confined_await; reflexivity|]. intros text.
  apply confined_bind; [apply confined_forEach_token|]. intros out.
  destruct (0 <? _)%nat; [|exact I].
  apply confined_await. cbn. apply negb_true_iff, String.eqb_neq. exact Hq.
Qed.

Lemma confined_forEach_async q {X : Type} (l : list X) body :
  (forall x, In x l -> confined q (body x)) ->
  confined q (forEach_async l body).
Proof.
  induction l as [|x l IH]; intros H; [exact I|].
  split; [apply H; left; reflexivity|]. apply IH.
  intros y Hy. apply H. right. exact Hy.
Qed.

Lemma start_forEach_async_app {X : Type} (l1 l2 : list X) body : forall w,
  start P (forEach_async (l1 ++ l2) body) w
  = start P (forEach_async l2 body) (start P (forEach_async l1 body) w).
Proof.
  induction l1 as [|x l1 IH]; intros w; [reflexivity|].
  cbn [app forEach_async start]. apply IH.
Qed.

End Footprint.

(** ** The substitution stage, in whatever order its operations complete *)

(** X12: from its start to any point of any order of completion,
    [replaceText] on an absolute folder changes no entry of the disk other
    than the files the manifest lists, each joined to the folder as
    [path.join] does: an absolute path in normal form that is none of
    these holds what it held. *)
Theorem replaceText_touches_listed_files_only (P : platform)
    (d : gmap string node) (repoFolder libName repoName q : string)
    (paramsJson : params) (schedule : list nat) :
  String.prefix "/" repoFolder = true ->
  resolved q = true ->
  (forall pathItem, In pathItem (pathItemSet paramsJson) ->
                    q <> join repoFolder pathItem) ->
  disk (run_schedule P schedule
          (start P (replaceText repoFolder paramsJson libName repoName)
             (on_disk d)))
    !! q
  = d !! q.
Proof.
  intros _ _ Hq.
  destruct (start_confined P q
              (replaceText repoFolder paramsJson libName repoName) (on_disk d))
    as [Hd Hp].
  - unfold replaceText. apply confined_forEach_async.
    intros pathItem Hin. apply confined_replaceFile, Hq, Hin.
  - constructor.
  - rewrite run_schedule_confined by exact Hp. exact Hd.
Qed.

Lemma replaceText_touches_listed_files_only_witness :
  disk (run_schedule (stub [] []) [1; 0; 1; 0]
          (start (stub [] [])
             (replaceText "/work/Foo" example_params "Foo" "org/bar")
             (on_disk unlisted_disk)))
    !! "/work/Foo/c.txt"
  = Some (File "{{REPO}}").
Proof.
  rewrite (replaceText_touches_listed_files_only (stub [] []) unlisted_disk
             "/work/Foo" "Foo" "org/bar" "/work/Foo/c.txt" example_params
             [1; 0; 1; 0]%nat).
  - vm_compute. reflexivity.
  - reflexivity.
  - vm_compute. reflexivity.
  - intros pathItem Hin. vm_compute in Hin.
    destruct Hin as [<-|[<-|[]]]; vm_compute; discriminate.
Defined.

Section Rewriting.
Context (P : platform).

Lemma complete_beside q i w before j after :
  pending w = before ++ j :: after ->
  Forall (job_confined q) before ->
  Forall (job_confined q) after ->
  i <> length before ->
  is_Some (pending w !! i) ->
  exists before' after',
    pending (complete P i w) = before' ++ j :: after'
    /\ Forall (job_confined q) before'
    /\ Forall (job_confined q) after'
    /\ disk (complete P i w) !! q = disk w !! q.
Proof.
  intros Hp Hb Ha Hi [j' Hj'].
  assert (Hconf : job_confined q j').
  { rewrite Hp in Hj'. destruct (decide (i < length before)%nat).
    - rewrite lookup_app_l in Hj' by assumption.
      exact (Forall_lookup_1 _ _ _ _ Hb Hj').
    - rewrite lookup_app_r in Hj' by lia.
      destruct (i - length before)%nat as [|m] eqn:Hm; [lia|].
      exact (Forall_lookup_1 _ _ _ _ Ha Hj'). }
  destruct (complete_confined_app P q i w j' Hj' Hconf)
    as (new & Hp' & Hnew & Hd).
  rewrite Hp, delete_across in Hp'.
  destruct (decide (i < length before)%nat).
  - exists (delete i before), (after ++ new).
    rewrite Hp', <- app_assoc. repeat split; try assumption.
    + apply Forall_delete, Hb.
    + apply Forall_app. auto.
  - destruct (i - length before)%nat as [|m] eqn:Hm; [lia|].
    exists before, (delete m after ++ new).
    rewrite Hp', <- app_assoc. repeat split; try assumption.
    apply Forall_app. split; [apply Forall_delete, Ha | exact Hnew].
Qed.

(** The rewriting of a file goes forward only: a completion moves it from
    its read to its write, from its write to the end, or not at all. *)
Lemma complete_rewriting filePath text written i w :
  rewriting filePath text written w ->
  rewriting filePath text written (complete P i w).
Proof.
  intros Hw.
  destruct (pending w !! i) as [j|] eqn:Hj;
    [|unfold complete; rewrite Hj; exact Hw].
  destruct Hw as [before k after Hp Hb Ha Hk Hd|before after Hp Hb Ha Hd|Hall Hd].
  - destruct (decide (i = length before)) as [->|Hi].
    + assert (Hjob : pending w !! length before
                     = Some (Job (fse_readFile filePath) k)).
      { rewrite Hp. apply list_lookup_middle. reflexivity. }
      rewrite (complete_eq P _ _ _ _ Hjob). cbn [exec fst snd].
      unfold read_text. rewrite Hd, Hk. cbn [await start].
      apply (rewriting_write _ _ _ _ (before ++ after) []).
      * cbn. rewrite Hp, delete_middle. reflexivity.
      * apply Forall_app. auto.
      * constructor.
      * exact Hd.
    + destruct (complete_beside filePath i w before _ after Hp Hb Ha Hi)
        as (before' & after' & Hp' & Hb' & Ha' & Hd'); [eauto|].
      apply (rewriting_read _ _ _ _ before' k after'); try assumption.
      rewrite Hd'. exact Hd.
  - destruct (decide (i = length before)) as [->|Hi].
    + assert (Hjob : pending w !! length before
                     = Some (Job (fse_writeFile filePath written) of_result)).
      { rewrite Hp. apply list_lookup_middle. reflexivity. }
      rewrite (complete_eq P _ _ _ _ Hjob). cbn [exec fst snd].
      unfold write_text. rewrite Hd. cbn [fst snd of_result start].
      apply rewriting_done.
      * cbn. rewrite Hp, delete_middle. apply Forall_app. auto.
      * cbn. apply lookup_insert_eq.
    + destruct (complete_beside filePath i w before _ after Hp Hb Ha Hi)
        as (before' & after' & Hp' & Hb' & Ha' & Hd'); [eauto|].
      apply (rewriting_write _ _ _ _ before' after'); try assumption.
      rewrite Hd'. exact Hd.
  - pose proof (Forall_lookup_1 _ _ _ _ Hall Hj) as Hconf.
    destruct (complete_confined_app P filePath i w j Hj Hconf)
      as (new & Hp' & Hnew & Hd').
    apply rewriting_done.
    + rewrite Hp'. apply Forall_app.
      split; [apply Forall_delete, Hall | exact Hnew].
    + rewrite Hd'. exact Hd.
Qed.

End Rewriting.

(** X13: the substitution stage does its work in whatever order the
    operations complete. Take a file at an absolute path in normal form
    that exists, that the manifest lists under tokens of the table only
    and under no second spelling of its path, with a library and a repo
    name that are not empty and hold no [$]: once no operation of
    [replaceText] is under way any more, the file holds the text it held
    with its tokens replaced, in the order of the keys of the manifest, by
    their values. *)
Theorem replaceText_rewrites_listed_file (P : platform) (d : gmap string node)
    (repoFolder libName repoName pathItem text : string) (paramsJson : params)
    (schedule : list nat) :
  let filePath := join repoFolder pathItem in
  let w := run_schedule P schedule
             (start P (replaceText repoFolder paramsJson libName repoName)
                (on_disk d)) in
  libName <> "" -> repoName <> "" ->
  no_dollar libName = true -> no_dollar repoName = true ->
  resolved filePath = true ->
  In pathItem (pathItemSet paramsJson) ->
  (forall pathItem', In pathItem' (pathItemSet paramsJson) ->
                     join repoFolder pathItem' = filePath ->
                     pathItem' = pathItem) ->
  Forall (fun from => from ∈ ["{{REPO}}"; "{{LIB_NAME}}"; "LibNameCoreAPI"])
    (tokens paramsJson pathItem) ->
  d !! filePath = Some (File text) ->
  pending w = [] ->
  disk w !! filePath
  = Some (File (substituted libName repoName (tokens paramsJson pathItem) text)).
Proof.
  intros filePath w Hl Hr Hdl Hdr _ Hlisted Hone Hall Hfile Hrest. subst w.
  set (written := substituted _ _ _ _).
  set (body := replaceFile repoFolder paramsJson (toFrom libName repoName)).
  assert (Hothers : forall pathItem',
            In pathItem' (pathItemSet paramsJson) -> pathItem' <> pathItem ->
            confined filePath (body pathItem')).
  { intros pathItem' Hin Hne. apply confined_replaceFile.
    intros Heq. apply Hne, Hone; [exact Hin | symmetry; exact Heq]. }
  assert (Hguard : (0 <? length (tokens paramsJson pathItem))%nat = true).
  { apply tokens_nonempty in Hlisted.
    destruct (tokens paramsJson pathItem); [contradiction|reflexivity]. }
  assert (Hstart : rewriting filePath text written
                     (start P (replaceText repoFolder paramsJson libName
                                 repoName) (on_disk d))).
  { unfold replaceText. fold body.
    pose proof (pathItemSet_NoDup paramsJson) as Hnodup.
    destruct (in_split _ _ Hlisted) as (l1 & l2 & Hsplit).
    assert (Hin : forall x, In x l1 \/ In x l2 ->
                            In x (pathItemSet paramsJson)).
    { intros x Hx. rewrite Hsplit. apply in_or_app.
      destruct Hx as [Hx|Hx]; [left | right; right]; exact Hx. }
    rewrite Hsplit in Hnodup |- *.
    apply NoDup_app in Hnodup as (_ & Hl1 & [Hl2 _]%NoDup_cons).
    rewrite start_forEach_async_app. cbn [forEach_async start].
    destruct (start_confined_app P filePath (forEach_async l1 body) (on_disk d))
      as (new1 & Hp1 & Hnew1 & Hd1).
    { apply confined_forEach_async. intros x Hx. apply Hothers; [auto|].
      intros ->. apply (Hl1 pathItem); [|left].
      apply list_elem_of_In. exact Hx. }
    set (w1 := start P (forEach_async l1 body) (on_disk d)) in *.
    destruct (start_confined_app P filePath (forEach_async l2 body)
                (start P (body pathItem) w1))
      as (new2 & Hp2 & Hnew2 & Hd2).
    { apply confined_forEach_async. intros x Hx. apply Hothers; [auto|].
      intros ->. apply Hl2. apply list_elem_of_In. exact Hx. }
    eapply (rewriting_read _ _ _ _ new1 _ new2).
    - rewrite Hp2. unfold body at 2, replaceFile.
      cbn. rewrite Hp1. cbn. rewrite <- app_assoc. reflexivity.
    - exact Hnew1.
    - exact Hnew2.
    - cbn. rewrite (forEach_token_plain _ _ _ _ Hl Hr Hdl Hdr Hall).
      cbn. cbn in Hguard. rewrite Hguard. reflexivity.
    - rewrite Hd2. unfold body, replaceFile. cbn. rewrite Hd1. exact Hfile. }
  assert (H : forall s w, rewriting filePath text written w ->
                          rewriting filePath text written (run_schedule P s w)).
  { induction s as [|i s IH]; intros w Hw; [exact Hw|]. cbn.
    apply IH, complete_rewriting, Hw. }
  destruct (H schedule _ Hstart) as [before k after Hp|before after Hp|_ Hd].
  - rewrite Hrest in Hp. destruct before; discriminate Hp.
  - rewrite Hrest in Hp. destruct before; discriminate Hp.
  - exact Hd.
Qed.

Lemma replaceText_rewrites_listed_file_witness :
  disk (run_schedule (stub [] []) [1; 0; 1; 0]
          (start (stub [] [])
             (replaceText "/work/Foo" example_params "Foo" "org/bar")
             (on_disk example_disk)))
    !! "/work/Foo/a.txt"
  = Some (File "Foo lives at org/bar").
Proof.
  apply (replaceText_rewrites_listed_file (stub [] []) example_disk
           "/work/Foo" "Foo" "org/bar" "a.txt"
           "{{LIB_NAME}} lives at {{REPO}}" example_params [1; 0; 1; 0]%nat).
  - discriminate.
  - discriminate.
  - reflexivity.
  - reflexivity.
  - vm_compute. reflexivity.
  - vm_compute. auto.
  - intros pathItem' Hin. vm_compute in Hin.
    destruct Hin as [<-|[<-|[]]]; [reflexivity|]. vm_compute. discriminate.
  - repeat constructor.
  - vm_compute. reflexivity.
  - vm_compute. reflexivity.
Defined.

(** ** Cleanup, in whatever order its operations complete *)

(** X14: from its start to any point of any order of completion,
    [cleanup] changes nothing that is not at or below one of six entries
    of the folder: the two files it removes, the two templates it renames
    and the two names it renames them to. *)
Theorem cleanup_touches_six_paths_only (P : platform) (d : gmap string node)
    (repoFolder q : string) (schedule : list nat) :
  Forall (fun name => under (join repoFolder name) q = None)
    ["types.d.ts"; "template.parameters.json"; "gitignore.template";
     ".gitignore"; "npmrc.template"; ".npmrc"] ->
  disk (run_schedule P schedule (start P (cleanup repoFolder) (on_disk d))) !! q
  = d !! q.
Proof.
  intros Hq.
  repeat (apply Forall_cons in Hq as [? Hq]).
  destruct (start_confined P q (cleanup repoFolder) (on_disk d)) as [Hd Hp].
  - unfold cleanup. cbn.
    repeat split; try (apply bool_decide_eq_true; assumption);
      apply andb_true_intro; split; apply bool_decide_eq_true; assumption.
  - constructor.
  - rewrite run_schedule_confined by exact Hp. exact Hd.
Qed.

Lemma cleanup_touches_six_paths_only_witness :
  disk (run_schedule bundled [3; 0; 1; 0]
          (start bundled (cleanup "/opt/aio-lib-template")
             (on_disk template_disk)))
    !! "/opt/aio-lib-template/package.json"
  = Some (File (stringify template_manifest)).
Proof.
  rewrite (cleanup_touches_six_paths_only bundled template_disk
             "/opt/aio-lib-template" "/opt/aio-lib-template/package.json"
             [3; 0; 1; 0]%nat).
  - vm_compute. reflexivity.
  - repeat constructor.
Defined.

Ltac literal_names :=
  repeat match goal with
         | H : _ ∈ _ :: _ |- _ => apply elem_of_cons in H as [H|H]
         | H : _ ∈ [] |- _ => inversion H
         | H : (_, _) = (_, _) |- _ => injection H as -> ->
         | H : ?x = String _ _ |- _ => subst x
         end.

Ltac outside_names :=
  cbn [outside]; rewrite ?under_join by reflexivity; reflexivity.

Section Cleanup.
Context (P : platform).

(** The completion of a job whose promise was dropped. *)
Lemma complete_unobserved {B : Type} (o : op B) i w :
  pending w !! i = Some (Job o unobserved) ->
  pending (complete P i w) = delete i (pending w)
  /\ disk (complete P i w) = (exec P o (disk w)).2.
Proof.
  intros Hj. unfold complete. rewrite Hj. unfold perform.
  cbn [fst snd disk pending trace].
  destruct (exec P o (disk w)) as [[b|e] d']; split; reflexivity.
Qed.

Lemma start_cleanup repoFolder d :
  disk (start P (cleanup repoFolder) (on_disk d)) = d
  /\ Forall (cleanup_job repoFolder)
       (pending (start P (cleanup repoFolder) (on_disk d))).
Proof. split; [reflexivity|]. cbn. repeat constructor. Qed.

Lemma complete_cleanup_jobs repoFolder i w :
  Forall (cleanup_job repoFolder) (pending w) ->
  Forall (cleanup_job repoFolder) (pending (complete P i w)).
Proof.
  intros Hw. destruct (pending w !! i) as [j|] eqn:Hj.
  - destruct (Forall_lookup_1 _ _ _ _ Hw Hj);
      destruct (complete_unobserved _ _ _ Hj) as [-> _];
      apply Forall_delete, Hw.
  - unfold complete. rewrite Hj. exact Hw.
Qed.

(** Once its removal has completed, a file of [filesToRemove] is gone,
    and no later operation of [cleanup] brings it back. *)
Lemma complete_cleanup_removed repoFolder file i w :
  file ∈ ["types.d.ts"; "template.parameters.json"] ->
  let q := join repoFolder file in
  Forall (cleanup_job repoFolder) (pending w) ->
  (existsb (removes q) (pending w) = false -> disk w !! q = None) ->
  existsb (removes q) (pending (complete P i w)) = false ->
  disk (complete P i w) !! q = None.
Proof.
  intros Hfile q Hw Hinv.
  destruct (pending w !! i) as [j|] eqn:Hj;
    [|unfold complete; rewrite Hj; exact Hinv].
  destruct (Forall_lookup_1 _ _ _ _ Hw Hj) as [file' Hfile'|key value Hmove];
    destruct (complete_unobserved _ _ _ Hj) as [-> ->]; cbn [exec snd].
  - destruct (String.eqb_spec (join repoFolder file') q) as [->|Hne].
    + intros _. apply remove_tree_self.
    + intros Hrest. apply remove_tree_None, Hinv.
      rewrite <- Hrest. symmetry. apply (existsb_delete _ _ _ _ Hj).
      cbn. apply String.eqb_neq. exact Hne.
  - intros Hrest.
    assert (Habsent : disk w !! q = None).
    { apply Hinv. rewrite <- Hrest. symmetry.
      apply (existsb_delete _ _ _ _ Hj). reflexivity. }
    destruct (negb (exists_at (disk w) (join repoFolder key)));
      [exact Habsent|].
    destruct (exists_at (disk w) (join repoFolder value)); [exact Habsent|].
    cbn. apply lookup_union_None. split; [|apply remove_tree_None, Habsent].
    apply relocate_None. intros rest Heq. subst q.
    literal_names;
      (apply join_cancel in Heq; [discriminate Heq | reflexivity..]).
Qed.

(** An entry at the place a rename aims at stays as it is. *)
Lemma complete_cleanup_kept repoFolder key value n i w :
  (key, value) ∈ [("gitignore.template", ".gitignore");
                  ("npmrc.template", ".npmrc")] ->
  Forall (cleanup_job repoFolder) (pending w) ->
  disk w !! join repoFolder value = Some n ->
  disk (complete P i w) !! join repoFolder value = Some n.
Proof.
  intros Hpair Hw Hn.
  destruct (pending w !! i) as [j|] eqn:Hj;
    [|unfold complete; rewrite Hj; exact Hn].
  destruct (Forall_lookup_1 _ _ _ _ Hw Hj) as [file' Hfile'|key' value' Hmove];
    destruct (complete_unobserved _ _ _ Hj) as [_ ->].
  - rewrite exec_outside; [exact Hn|]. literal_names; outside_names.
  - destruct (String.eqb_spec value' value) as [->|Hne].
    + cbn [exec]. rewrite (exists_at_Some _ _ _ Hn).
      destruct (negb _); exact Hn.
    + rewrite exec_outside; [exact Hn|].
      literal_names; try contradiction; outside_names.
Qed.

(** Until its rename completes a template file waits at its place, and
    from then on it is at the new one. *)
Lemma complete_cleanup_renamed repoFolder key value n i w :
  (key, value) ∈ [("gitignore.template", ".gitignore");
                  ("npmrc.template", ".npmrc")] ->
  let src := join repoFolder key in
  let dest := join repoFolder value in
  let waits w := disk w !! src = Some n /\ disk w !! dest = None
                 /\ existsb (moves src) (pending w) = true in
  let moved w := disk w !! dest = Some n /\ disk w !! src = None in
  Forall (cleanup_job repoFolder) (pending w) ->
  waits w \/ moved w ->
  waits (complete P i w) \/ moved (complete P i w).
Proof.
  intros Hpair src dest waits moved Hw Hinv. subst waits moved. cbn beta in *.
  destruct (pending w !! i) as [j|] eqn:Hj;
    [|unfold complete; rewrite Hj; exact Hinv].
  destruct (Forall_lookup_1 _ _ _ _ Hw Hj) as [file' Hfile'|key' value' Hmove];
    destruct (complete_unobserved _ _ _ Hj) as [-> ->].
  - assert (Hsrc : outside src (fse_remove (join repoFolder file')) = true).
    { subst src. literal_names; outside_names. }
    assert (Hdest : outside dest (fse_remove (join repoFolder file')) = true).
    { subst dest. literal_names; outside_names. }
    rewrite !exec_outside by assumption.
    rewrite (existsb_delete _ _ _ _ Hj) by reflexivity. exact Hinv.
  - destruct (String.eqb_spec key' key) as [->|Hne].
    + assert (value' = value) as -> by (literal_names; congruence).
      fold src dest. right.
      destruct Hinv as [(Hs & Hd & _)|[Hd Hs]]; cbn [exec].
      * rewrite (exists_at_Some _ _ _ Hs). cbn [negb].
        rewrite (exists_at_None _ _ Hd). cbn. split.
        -- apply lookup_union_Some_l.
           pose proof (relocated_lookup (disk w) src dest src n ""
                         Hs (under_self src)) as Hl.
           rewrite append_empty_r in Hl. exact Hl.
        -- apply lookup_union_None. split; [|apply remove_tree_self].
           apply relocate_None. subst src dest. intros rest Heq.
           literal_names;
             (apply join_cancel in Heq; [discriminate Heq | reflexivity..]).
      * rewrite (exists_at_None _ _ Hs). cbn. auto.
    + assert (Hsrc : outside src (fse_move (join repoFolder key')
                                    (join repoFolder value')) = true).
      { subst src. literal_names; try contradiction; outside_names. }
      assert (Hdest : outside dest (fse_move (join repoFolder key')
                                      (join repoFolder value')) = true).
      { subst dest. literal_names; try contradiction; outside_names. }
      rewrite !exec_outside by assumption.
      rewrite (existsb_delete _ _ _ _ Hj); [exact Hinv|].
      cbn. subst src.
      literal_names; try contradiction; rewrite join_eqb; reflexivity.
Qed.

End Cleanup.

(** X15: once the operations that [cleanup] issued have all completed, in
    whatever order, [types.d.ts] and [template.parameters.json] are gone
    from the folder, on every disk. *)
Theorem cleanup_removes_template_files (P : platform) (d : gmap string node)
    (repoFolder file : string) (schedule : list nat) :
  let w := run_schedule P schedule (start P (cleanup repoFolder) (on_disk d)) in
  file ∈ ["types.d.ts"; "template.parameters.json"] ->
  pending w = [] ->
  disk w !! join repoFolder file = None.
Proof.
  intros w Hfile Hrest. subst w.
  set (q := join repoFolder file) in *.
  assert (H : forall s w,
            Forall (cleanup_job repoFolder) (pending w) ->
            (existsb (removes q) (pending w) = false -> disk w !! q = None) ->
            existsb (removes q) (pending (run_schedule P s w)) = false ->
            disk (run_schedule P s w) !! q = None).
  { induction s as [|i s IH]; intros w Hw Hinv; [exact Hinv|]. cbn.
    apply IH.
    - apply complete_cleanup_jobs, Hw.
    - apply complete_cleanup_removed; assumption. }
  apply H.
  - apply start_cleanup.
  - cbn. repeat (apply elem_of_cons in Hfile as [->|Hfile]);
      [| |inversion Hfile]; subst q; rewrite String.eqb_refl; cbn;
      try rewrite orb_true_r; discriminate.
  - rewrite Hrest. reflexivity.
Qed.

Lemma cleanup_removes_template_files_witness :
  disk (run_schedule bundled [3; 0; 1; 0]
          (start bundled (cleanup "/opt/aio-lib-template")
             (on_disk template_disk)))
    !! "/opt/aio-lib-template/template.parameters.json"
  = None.
Proof.
  apply (cleanup_removes_template_files bundled template_disk
           "/opt/aio-lib-template" "template.parameters.json" [3; 0; 1; 0]%nat).
  - set_solver.
  - vm_compute. reflexivity.
Defined.

(** X16: [cleanup] never replaces a [.gitignore] or an [.npmrc] that is
    there already: whatever the order of completion, and at every point of
    it, the entry is as it was - the rename that aims at it is rejected,
    and its template stays where it is. *)
Theorem cleanup_keeps_existing_target (P : platform) (d : gmap string node)
    (repoFolder key value : string) (n : node) (schedule : list nat) :
  (key, value) ∈ [("gitignore.template", ".gitignore");
                  ("npmrc.template", ".npmrc")] ->
  d !! join repoFolder value = Some n ->
  disk (run_schedule P schedule (start P (cleanup repoFolder) (on_disk d)))
    !! join repoFolder value
  = Some n.
Proof.
  intros Hpair Hn.
  assert (H : forall s w,
            Forall (cleanup_job repoFolder) (pending w) ->
            disk w !! join repoFolder value = Some n ->
            disk (run_schedule P s w) !! join repoFolder value = Some n).
  { induction s as [|i s IH]; intros w Hw Hd; [exact Hd|]. cbn.
    apply IH.
    - apply complete_cleanup_jobs, Hw.
    - apply (complete_cleanup_kept P repoFolder key); assumption. }
  apply H; [apply start_cleanup | exact Hn].
Qed.

Lemma cleanup_keeps_existing_target_witness :
  disk (run_schedule bundled [2; 0; 1; 0]
          (start bundled (cleanup "/opt/aio-lib-template")
             (on_disk ignoring_disk)))
    !! "/opt/aio-lib-template/.gitignore"
  = Some (File "dist").
Proof.
  apply (cleanup_keeps_existing_target bundled ignoring_disk
           "/opt/aio-lib-template" "gitignore.template" ".gitignore"
           (File "dist") [2; 0; 1; 0]%nat).
  - set_solver.
  - vm_compute. reflexivity.
Defined.

(** X17: a template file that is there, with nothing at the name it is to
    get, is renamed: once the operations that [cleanup] issued have all
    completed, in whatever order, [gitignore.template] is at [.gitignore]
    (and [npmrc.template] at [.npmrc]) and no longer at its old place. *)
Theorem cleanup_renames_template_files (P : platform) (d : gmap string node)
    (repoFolder key value : string) (n : node) (schedule : list nat) :
  let w := run_schedule P schedule (start P (cleanup repoFolder) (on_disk d)) in
  (key, value) ∈ [("gitignore.template", ".gitignore");
                  ("npmrc.template", ".npmrc")] ->
  d !! join repoFolder key = Some n ->
  d !! join repoFolder value = None ->
  pending w = [] ->
  disk w !! join repoFolder value = Some n
  /\ disk w !! join repoFolder key = None.
Proof.
  intros w Hpair Hsrc Hdest Hrest. subst w.
  set (src := join repoFolder key) in *.
  set (dest := join repoFolder value) in *.
  assert (H : forall s w,
            Forall (cleanup_job repoFolder) (pending w) ->
            (disk w !! src = Some n /\ disk w !! dest = None
             /\ existsb (moves src) (pending w) = true)
            \/ (disk w !! dest = Some n /\ disk w !! src = None) ->
            (disk (run_schedule P s w) !! src = Some n
             /\ disk (run_schedule P s w) !! dest = None
             /\ existsb (moves src) (pending (run_schedule P s w)) = true)
            \/ (disk (run_schedule P s w) !! dest = Some n
                /\ disk (run_schedule P s w) !! src = None)).
  { induction s as [|i s IH]; intros w Hw Hinv; [exact Hinv|]. cbn.
    apply IH.
    - apply complete_cleanup_jobs, Hw.
    - apply (complete_cleanup_renamed P repoFolder key value); assumption. }
  destruct (H schedule (start P (cleanup repoFolder) (on_disk d)))
    as [(_ & _ & Hpending)|Hmoved].
  - apply start_cleanup.
  - left. split; [exact Hsrc|]. split; [exact Hdest|].
    subst src. cbn.
    literal_names; rewrite !join_eqb by reflexivity; reflexivity.
  - rewrite Hrest in Hpending. discriminate Hpending.
  - exact Hmoved.
Qed.

Lemma cleanup_renames_template_files_witness :
  let w := run_schedule bundled [2; 0; 1; 0]
             (start bundled (cleanup "/opt/aio-lib-template")
                (on_disk template_disk)) in
  disk w !! "/opt/aio-lib-template/.gitignore" = Some (File "node_modules")
  /\ disk w !! "/opt/aio-lib-template/gitignore.template" = None.
Proof.
  apply (cleanup_renames_template_files bundled template_disk
           "/opt/aio-lib-template" "gitignore.template" ".gitignore"
           (File "node_modules") [2; 0; 1; 0]%nat).
  - set_solver.
  - vm_compute. reflexivity.
  - vm_compute. reflexivity.
  - vm_compute. reflexivity.
Defined.

(** ** The run, stage after stage *)

(** X18: with a template URL, the run does not wait for the clone. The
    destination is an absolute path in normal form with nothing there. The
    task that starts the clone returns at once, so the removal of [.git]
    is issued while the clone is under way; when that removal and the
    existence test of the next stage complete before the clone does, the
    run reports "template.parameters.json does not exist in <destination>"
    with the clone still under way - whatever the clone would bring. The
    promise of [run] is fulfilled before the first task starts. *)
Theorem run_does_not_wait_for_clone (P : platform) (d : gmap string node)
    (a : args.t) (f : flags.t) (url : string) :
  let dest := destination P a f in
  let missing := "template.parameters.json does not exist in " +:+ dest in
  let w := run_schedule P [0; 0; 1; 1]%nat
             (start P (observe (run P a f)) (on_disk d)) in
  args.libName a <> "" ->
  resolved dest = true ->
  flags.templateUrl f = Some url -> url <> "" ->
  exists_at d dest = false ->
  d !! join dest "template.parameters.json" = None ->
  map job_op (pending w) = [Issued (git_clone url dest)]
  /\ disk w = remove_tree d (join dest ".git")
  /\ trace w
     = [Done (fse_pathExists dest) (Ok false);
        Settled (Ok tt);
        Done next_turn (Ok tt);
        Stage None;
        Title ("Cloning template from " +:+ url);
        Log ("Cloning " +:+ url +:+ "...");
        Stage (Some "Remove .git folder");
        Done (fse_remove (join dest ".git")) (Ok tt);
        Stage (Some "Read parameters file");
        Done (fse_pathExists (join dest "template.parameters.json")) (Ok false);
        CliError missing;
        Unhandled missing].
Proof.
  intros dest missing w Hname _ Hurl Hne Hdest Hparams. subst w missing dest.
  unfold destination, run in *.
  destruct (args.libName a) as [|first rest]; [contradiction|].
  set (dest := join _ (String first rest)) in *.
  apply String.eqb_neq in Hne.
  assert (Hgone : exists_at (remove_tree d (join dest ".git"))
                    (join dest "template.parameters.json") = false).
  { apply exists_at_None, remove_tree_None, Hparams. }
  cbn. rewrite Hdest. cbn. rewrite Hurl. cbn. rewrite Hne. cbn.
  rewrite Hgone. cbn.
  repeat split.
Qed.

Lemma run_does_not_wait_for_clone_witness :
  map job_op
    (pending
       (run_schedule bundled [0; 0; 1; 1]%nat
          (start bundled (observe (run bundled library clone_flags))
             (on_disk template_disk))))
  = [Issued (git_clone "https://example.com/t.git" "/work/foo")].
Proof.
  destruct (run_does_not_wait_for_clone bundled template_disk library
              clone_flags "https://example.com/t.git") as (Hpending & _ & _).
  - discriminate.
  - vm_compute. reflexivity.
  - reflexivity.
  - discriminate.
  - vm_compute. reflexivity.
  - vm_compute. reflexivity.
  - exact Hpending.
Defined.

(** X19: a template without a parameter manifest ends the run at the
    third stage. The destination is an absolute path in normal form with
    nothing there, and the copy of the template succeeds. The copy and the
    removal of [.git] have taken effect and are not undone; the run
    reports "template.parameters.json does not exist in <destination>"; no
    later stage starts, so [package.json] is not rewritten, and no
    operation is under way. The promise of [run] is fulfilled before the
    first task starts. *)
Theorem run_stops_at_missing_parameters (P : platform)
    (d copied : gmap string node) (a : args.t) (f : flags.t) :
  let dest := destination P a f in
  let missing := "template.parameters.json does not exist in " +:+ dest in
  let w := run_schedule P [0; 0; 0; 0; 0]%nat
             (start P (observe (run P a f)) (on_disk d)) in
  args.libName a <> "" ->
  resolved dest = true ->
  given (flags.templateUrl f) = false ->
  exists_at d dest = false ->
  exec P (fse_copy (template_root P) dest (flags.overwrite f)
            (negb (flags.overwrite f))) d
  = (Ok tt, copied) ->
  copied !! join dest "template.parameters.json" = None ->
  pending w = []
  /\ disk w = remove_tree copied (join dest ".git")
  /\ trace w
     = [Done (fse_pathExists dest) (Ok false);
        Settled (Ok tt);
        Done next_turn (Ok tt);
        Stage (Some "Copy template");
        Done (fse_copy (template_root P) dest (flags.overwrite f)
                (negb (flags.overwrite f))) (Ok tt);
        Stage (Some "Remove .git folder");
        Done (fse_remove (join dest ".git")) (Ok tt);
        Stage (Some "Read parameters file");
        Done (fse_pathExists (join dest "template.parameters.json")) (Ok false);
        CliError missing;
        Unhandled missing].
Proof.
  intros dest missing w Hname _ Hurl Hdest Hcopy Hparams. subst w missing dest.
  unfold destination, run in *.
  destruct (args.libName a) as [|first rest]; [contradiction|].
  set (dest := join _ (String first rest)) in *.
  assert (Hgone : exists_at (remove_tree copied (join dest ".git"))
                    (join dest "template.parameters.json") = false).
  { apply exists_at_None, remove_tree_None, Hparams. }
  cbn -[copy_fails mkdirs relocate]. rewrite Hdest, Hurl.
  cbn -[copy_fails mkdirs relocate].
  cbn -[copy_fails mkdirs relocate] in Hcopy. rewrite Hcopy.
  cbn. rewrite Hgone. cbn.
  repeat split.
Qed.

Lemma run_stops_at_missing_parameters_witness :
  let w := run_schedule bundled [0; 0; 0; 0; 0]%nat
             (start bundled (observe (run bundled library no_flags))
                (on_disk bare_disk)) in
  pending w = []
  /\ disk w !! "/work/foo/package.json"
     = Some (File (stringify template_manifest)).
Proof.
  destruct (run_stops_at_missing_parameters bundled bare_disk
              (exec bundled
                 (fse_copy "/opt/aio-lib-template" "/work/foo" false true)
                 bare_disk).2
              library no_flags) as (Hpending & Hdisk & _).
  - discriminate.
  - vm_compute. reflexivity.
  - reflexivity.
  - vm_compute. reflexivity.
  - vm_compute. reflexivity.
  - vm_compute. reflexivity.
  - split; [exact Hpending|]. cbv zeta. rewrite Hdisk. vm_compute. reflexivity.
Defined.

(** X20: a leading [@] of the repo name makes no difference to the run:
    [run] strips it first, so a name given as [@org/repo] and the same name
    given as [org/repo] start the very same pipeline. *)
Theorem run_ignores_leading_at (P : platform) (libName repoName : string)
    (f : flags.t) :
  startsWith repoName "@" = false ->
  run P {| args.libName := libName; args.repoName := "@" +:+ repoName |} f
  = run P {| args.libName := libName; args.repoName := repoName |} f.
Proof.
  intros Hplain. unfold run. cbn [args.libName args.repoName].
  destruct libName as [|first rest]; [reflexivity|].
  rewrite Hplain.
  change ("@" +:+ repoName) with (String "@" repoName).
  unfold startsWith. rewrite prefix_cons, prefix_empty.
  destruct (ascii_dec "@" "@"); [|contradiction].
  reflexivity.
Qed.

Lemma run_ignores_leading_at_witness :
  run bundled {| args.libName := "foo"; args.repoName := "@org/bar" |} no_flags
  = run bundled {| args.libName := "foo"; args.repoName := "org/bar" |} no_flags.
Proof.
  apply (run_ignores_leading_at bundled "foo" "org/bar" no_flags).
  reflexivity.
Defined.
